(** * MAVEN: the capture-and-inference pipeline, embedded in Rocq

    The development follows the Python sources:

    - [audio_feature_extraction.py]: [extract_features_from_audio];
    - [audio_emotion_detector.py]: [AudioEmotionDetector.predict_from_audio],
      [predict_from_file], [get_detector];
    - [app.py]: the frame generator [get_frame], the registry
      [current_emotions], [get_emotions] and the three audio routes.

    Python floats are IEEE binary64 values and the scores DeepFace
    reports are numpy single-precision scalars; both are modelled with the
    axiom-free [spec_float] of the standard library.  A [string] holds the
    UTF-8 encoding of a Python [str].  Dictionaries are stdpp [gmap]s.
    Calls into numpy's reductions that the code only logs, librosa,
    scikit-learn, DeepFace, OpenCV and sounddevice are taken as
    parameters, bundled in records that mirror the objects the code
    holds. *)

From Stdlib Require Import ZArith List Bool Lia String Ascii.
From Stdlib Require Import Floats.SpecFloat.
From stdpp Require Import gmap strings.
Import ListNotations.

(* ===================================================================== *)
(** ** Python floats *)
(* ===================================================================== *)

Module PyFloat.
Local Open Scope Z_scope.

Definition prec : Z := 53.
Definition emax : Z := 1024.

Definition float : Type := spec_float.

Definition ltb (x y : float) : bool := SFltb x y.
Definition leb (x y : float) : bool := SFleb x y.
Definition div (x y : float) : float := SFdiv prec emax x y.

(** [float(n)] for a Python integer [n]. *)
Definition of_Z (n : Z) : float := binary_normalize prec emax n 0 false.

(** The decimal literal [n]e-[k], e.g. [dec 15 2] for [0.15]: the double
    nearest to the decimal, which a correctly rounded division of two
    exactly representable integers yields. *)
Definition dec (n : Z) (k : Z) : float := div (of_Z n) (of_Z (10 ^ k)).

Definition zero : float := S754_zero false.
Definition one : float := of_Z 1.

Definition is_nan (x : float) : bool :=
  match x with S754_nan => true | _ => false end.

Definition is_finite (x : float) : bool :=
  match x with S754_zero _ | S754_finite _ _ _ => true | _ => false end.

(** Floats that occur at run time are canonical. *)
Definition valid (x : float) : bool := valid_binary prec emax x.

(** Membership in the closed interval [0,1]. *)
Definition in_unit (x : float) : bool := leb zero x && leb x one.

(** [n / d] rounded to the nearest integer, ties to even ([0 < d]). *)
Definition round_half_even (n d : Z) : Z :=
  let q := n / d in
  let r := n mod d in
  match 2 * r ?= d with
  | Lt => q
  | Gt => q + 1
  | Eq => if Z.even q then q else q + 1
  end.

(** The builtin [round(x, ndigits)] on a float, for [0 <= ndigits]:
    the value is converted to the correctly rounded decimal with
    [ndigits] fractional digits (ties on the exact binary value go to
    even), and that decimal is read back as the nearest double.
    Infinities and NaN are returned unchanged. *)
Definition py_round (x : float) (ndigits : Z) : float :=
  match x with
  | S754_finite s m e =>
      let p := 10 ^ ndigits in
      let d := if 0 <=? e
               then Zpos m * 2 ^ e * p
               else round_half_even (Zpos m * p) (2 ^ (- e)) in
      match d with
      | Zpos dp => div (S754_finite s dp 0) (S754_finite false (Z.to_pos p) 0)
      | _ => S754_zero s
      end
  | _ => x
  end.

(** [np.maximum(a, b)]: [(a >= b || isnan(a)) ? a : b]. *)
Definition np_maximum (a b : float) : float :=
  if leb b a || is_nan a then a else b.

(** [np.max] of a one-dimensional array; [None] stands for the
    [ValueError] numpy raises on a zero-size array. *)
Definition np_max (l : list float) : option float :=
  match l with
  | [] => None
  | x :: xs => Some (fold_left np_maximum xs x)
  end.
End PyFloat.

Export PyFloat.

(* ===================================================================== *)
(** ** numpy single-precision scalars *)
(* ===================================================================== *)

Module NpFloat32.
Local Open Scope Z_scope.

Definition prec : Z := 24.
Definition emax : Z := 128.

(** [np.float32(x)] for a Python float [x]: the nearest single. *)
Definition of_double (x : float) : float :=
  match x with
  | S754_finite s m e => binary_round prec emax s m e
  | _ => x
  end.

(** [float(x)] for a single [x]; every single is a double, so this only
    renormalizes the mantissa. *)
Definition to_double (x : float) : float :=
  match x with
  | S754_finite s m e => binary_round PyFloat.prec PyFloat.emax s m e
  | _ => x
  end.

Definition mul (x y : float) : float := SFmul prec emax x y.
Definition div (x y : float) : float := SFdiv prec emax x y.

(** [np.rint]: the nearest integer, ties to even. *)
Definition rint (x : float) : float :=
  match x with
  | S754_finite s m e =>
      if 0 <=? e then x
      else match round_half_even (Zpos m) (2 ^ (- e)) with
           | Zpos q => binary_round prec emax s q 0
           | _ => S754_zero s
           end
  | _ => x
  end.

(** [round(x, decimals)] on a [numpy.float32] scalar, for
    [0 < decimals]: numpy multiplies by the power of ten, applies
    [rint] and divides again, every step in single precision. *)
Definition np_round (x : float) (decimals : Z) : float :=
  let f := of_double (PyFloat.of_Z (10 ^ decimals)) in
  div (rint (mul x f)) f.
End NpFloat32.

(* ===================================================================== *)
(** ** Strings and exceptions *)
(* ===================================================================== *)

(** Whether the bytes [cs] are the UTF-8 encoding of one character for
    which [str.isspace] holds: U+0009 to U+000D, U+001C to U+0020,
    U+0085, U+00A0, U+1680, U+2000 to U+200A, U+2028, U+2029, U+202F,
    U+205F and U+3000. *)
Definition whitespace_utf8 (cs : list N) : bool :=
  match cs with
  | [c] => ((9 <=? c) && (c <=? 13) || (28 <=? c) && (c <=? 32))%N
  | [194; b] => ((b =? 133) || (b =? 160))%N
  | [225; 154; 128] => true
  | [226; 128; b] =>
      ((128 <=? b) && (b <=? 138) || (b =? 168) || (b =? 169) || (b =? 175))%N
  | [226; 129; 159] => true
  | [227; 128; 128] => true
  | _ => false
  end%N.

(** The number of bytes of the whitespace character [l] starts with, or
    0 when it starts with none. *)
Definition leading_space (l : list ascii) : nat :=
  if whitespace_utf8 (N_of_ascii <$> take 1 l) then 1
  else if whitespace_utf8 (N_of_ascii <$> take 2 l) then 2
  else if whitespace_utf8 (N_of_ascii <$> take 3 l) then 3
  else 0.

(** The same for the reversed bytes of a string: the number of bytes of
    the whitespace character the string ends with. *)
Definition trailing_space (r : list ascii) : nat :=
  if whitespace_utf8 (N_of_ascii <$> rev (take 1 r)) then 1
  else if whitespace_utf8 (N_of_ascii <$> rev (take 2 r)) then 2
  else if whitespace_utf8 (N_of_ascii <$> rev (take 3 r)) then 3
  else 0.

(** Drop whitespace characters from the front as long as there is one;
    [n] bounds the number of characters. *)
Fixpoint strip_front (width : list ascii -> nat) (n : nat) (l : list ascii)
    : list ascii :=
  match n with
  | O => l
  | S n' =>
      match width l with
      | O => l
      | w => strip_front width n' (drop w l)
      end
  end.

Definition lstrip_chars (l : list ascii) : list ascii :=
  strip_front leading_space (length l) l.

Definition rstrip_chars (l : list ascii) : list ascii :=
  rev (strip_front trailing_space (length l) (rev l)).

(** [s.strip()]. *)
Definition strip (s : string) : string :=
  string_of_list_ascii (rstrip_chars (lstrip_chars (list_ascii_of_string s))).

(** A computation that returns a value or raises an [Exception] whose
    [str(e)] is the carried message. *)
Inductive result (A : Type) : Type :=
| Ok (a : A)
| Raise (msg : string).
Arguments Ok {A} a.
Arguments Raise {A} msg.

#[global] Instance result_ret : MRet result := fun _ a => Ok a.
#[global] Instance result_bind : MBind result := fun _ _ f m =>
  match m with
  | Ok a => f a
  | Raise msg => Raise msg
  end.

Definition raises {A} (m : result A) : bool :=
  match m with Ok _ => false | Raise _ => true end.

(* ===================================================================== *)
(** ** External collaborators *)
(* ===================================================================== *)

(** The values of a one-dimensional array of samples. *)
Definition samples : Type := list float.

(** The element type of an array of samples. *)
Inductive dtype : Type := Float32 | Float64.

(** An audio buffer: a one-dimensional numpy array, with the element
    type librosa computes in. *)
Record ndarray : Type := {
  a_dtype : dtype;
  a_data : samples
}.

(** [np.array(l)] for a list of Python floats, and
    [data.astype(float)]: a double-precision array. *)
Definition np_array (l : samples) : ndarray :=
  {| a_dtype := Float64; a_data := l |}.

(** An array recorded with [dtype='float32']. *)
Definition float32_array (l : samples) : ndarray :=
  {| a_dtype := Float32; a_data := l |}.

(** A feature matrix as librosa returns it: one row per coefficient, one
    column per short-time frame. *)
Definition matrix : Type := list (list float).

(** The functions of librosa, numpy and scipy the audio code calls.  Each
    may raise. [np_mean] is [np.mean] over all entries of its argument. *)
Record AudioLibs : Type := {
  effects_trim : ndarray -> Z -> result ndarray;
  util_normalize : ndarray -> result ndarray;
  feature_mfcc : ndarray -> Z -> nat -> result matrix;
  feature_chroma_stft : ndarray -> Z -> result matrix;
  feature_zero_crossing_rate : ndarray -> result matrix;
  np_mean : list float -> float;
  librosa_load : string -> Z -> result (ndarray * Z);
  wavfile_read : string -> result (Z * list Z);
  librosa_resample : ndarray -> Z -> Z -> result ndarray
}.

(** The attributes of an [AudioEmotionDetector]: the scaler, the model
    with its two prediction methods, and the model's [classes_]. *)
Record Detector : Type := {
  scaler_transform : list float -> result (list float);
  model_predict : list float -> result string;
  model_predict_proba : list float -> result (list float);
  classes_ : list string
}.

(* ===================================================================== *)
(** ** audio_feature_extraction.py *)
(* ===================================================================== *)

(** [extract_features_from_audio(y, sr)].  [np.mean(m.T, axis=0)] is the
    mean of every row of [m] over its frames; [np.mean] of the
    zero-crossing matrix is the mean over all its entries; [np.hstack]
    appends the three pieces. *)
Definition extract_features_from_audio (L : AudioLibs)
    (y : ndarray) (sr : Z) : result (list float) :=
  y ← effects_trim L y 25;
  y ← util_normalize L y;
  mfcc ← feature_mfcc L y sr 13;
  let mfcc_mean := map (np_mean L) mfcc in
  chroma ← feature_chroma_stft L y sr;
  let chroma_mean := map (np_mean L) chroma in
  zc ← feature_zero_crossing_rate L y;
  let zcr := np_mean L (concat zc) in
  Ok (mfcc_mean ++ chroma_mean ++ [zcr]).

(** [extract_features(file_path, sr)], the variant used on the files of
    the data set: the file is loaded at rate [sr], then the same steps
    are run. *)
Definition extract_features (L : AudioLibs) (file_path : string) (sr : Z)
    : result (list float) :=
  '(y, sr) ← librosa_load L file_path sr;
  y ← effects_trim L y 25;
  y ← util_normalize L y;
  mfcc ← feature_mfcc L y sr 13;
  let mfcc_mean := map (np_mean L) mfcc in
  chroma ← feature_chroma_stft L y sr;
  let chroma_mean := map (np_mean L) chroma in
  zc ← feature_zero_crossing_rate L y;
  let zcr := np_mean L (concat zc) in
  Ok (mfcc_mean ++ chroma_mean ++ [zcr]).

(* ===================================================================== *)
(** ** audio_emotion_detector.py *)
(* ===================================================================== *)

(** A JSON body: the keys that are present and their values.  The audio
    code builds dictionaries over the keys ['emotion'], ['confidence'],
    ['probabilities'] and ['error'] only. *)
Record Body : Type := {
  emotion : option string;
  confidence : option float;
  probabilities : option (gmap string float);
  error : option string
}.

(** The statistics line logged first evaluates [np.min(audio_data)],
    which raises on a zero-size array. *)
Definition log_audio_statistics (audio_data : ndarray) : result unit :=
  match a_data audio_data with
  | [] => Raise "zero-size array to reduction operation minimum which has no identity"
  | _ => Ok tt
  end.

(** [prob_dict]: the stripped class labels paired with the posterior. *)
Definition prob_dict (classes : list string) (probs : list float)
    : gmap string float :=
  fold_left (fun d lp => <[strip lp.1 := lp.2]> d) (zip classes probs) ∅.

(** The confidence gate. *)
Definition gate (prediction : string) (conf : float) : string * float :=
  if ltb conf (dec 15 2) then ("neutral", dec 15 2) else (prediction, conf).

(** The body of the [try] block of [predict_from_audio]. *)
Definition predict_from_audio_try (L : AudioLibs) (self : Detector)
    (audio_data : ndarray) (sample_rate : Z) : result Body :=
  _ ← log_audio_statistics audio_data;
  features ← extract_features_from_audio L audio_data sample_rate;
  features_scaled ← scaler_transform self features;
  prediction ← model_predict self features_scaled;
  probs ← model_predict_proba self features_scaled;
  conf ← match np_max probs with
         | Some c => Ok c
         | None => Raise "zero-size array to reduction operation maximum which has no identity"
         end;
  let '(prediction, conf) := gate prediction conf in
  Ok {| emotion := Some (strip prediction);
        confidence := Some (py_round conf 4);
        probabilities := Some (prob_dict (classes_ self) probs);
        error := None |}.

Definition predict_from_audio (L : AudioLibs) (self : Detector)
    (audio_data : ndarray) (sample_rate : Z) : Body :=
  match predict_from_audio_try L self audio_data sample_rate with
  | Ok r => r
  | Raise e => {| emotion := Some "neutral";
                  confidence := Some zero;
                  probabilities := Some ∅;
                  error := Some e |}
  end.

(** The two decoders of [predict_from_file], tried in sequence; when the
    second fails as well, the first decoder's exception is re-raised.
    The second decoder's integer samples become a double-precision array
    ([astype(float)]) before they are divided by 32768.0. *)
Definition decode_file (L : AudioLibs) (file : string) : result (ndarray * Z) :=
  match librosa_load L file 22050 with
  | Ok r => Ok r
  | Raise load_error =>
      match
        '(sr, data) ← wavfile_read L file;
        let audio_data := np_array (map (fun s => div (of_Z s) (of_Z 32768)) data) in
        if (sr =? 22050)%Z then Ok (audio_data, sr)
        else audio_data ← librosa_resample L audio_data sr 22050;
             Ok (audio_data, 22050%Z)
      with
      | Ok r => Ok r
      | Raise _ => Raise load_error
      end
  end.

Definition predict_from_file (L : AudioLibs) (self : Detector)
    (file : string) : Body :=
  match decode_file L file with
  | Ok (audio_data, sr) => predict_from_audio L self audio_data sr
  | Raise e => {| emotion := Some "neutral";
                  confidence := Some zero;
                  probabilities := None;
                  error := Some e |}
  end.

(** [get_detector()]: the module-level [_detector] is created on first
    use; [construct] is the outcome of [AudioEmotionDetector()], which
    raises when an artifact is missing.  Returns the new value of
    [_detector] and the function's result. *)
Definition get_detector (construct : result Detector)
    (_detector : option Detector) : option Detector * option Detector :=
  match _detector with
  | Some d => (Some d, Some d)
  | None =>
      match construct with
      | Ok d => (Some d, Some d)
      | Raise _ => (None, None)
      end
  end.

(* ===================================================================== *)
(** ** app.py: the frame loop *)
(* ===================================================================== *)

(** The confidence of a face: the Python [int] 0 of the failure branch,
    or a score of DeepFace, which is a [numpy.float32] scalar. *)
Inductive num : Type :=
| PyInt (n : Z)
| NpF32 (x : float).

(** [round(c, ndigits)]: an [int] is returned as it is, and a numpy
    scalar is rounded by numpy in its own precision. *)
Definition round_num (c : num) (ndigits : Z) : num :=
  match c with
  | PyInt n => PyInt n
  | NpF32 x => NpF32 (NpFloat32.np_round x ndigits)
  end.

(** [c > 0.5]; 0.5 is a single as well as a double, so the comparison
    gives the same result in either precision. *)
Definition gt_half (c : num) : bool :=
  match c with
  | PyInt n => (1 <=? n)%Z
  | NpF32 x => ltb (dec 5 1) (NpFloat32.to_double x)
  end.

(** One value of [current_emotions]. *)
Record Entry : Type := {
  e_emotion : string;
  e_confidence : num;
  e_coords : list Z
}.

(** What [cv2.rectangle] and [cv2.putText] add to a frame; the label
    text is kept as the pair it is formatted from. *)
Inductive Overlay : Type :=
| Rectangle (x y x2 y2 : Z) (strong : bool)
| PutText (dominant_emotion : string) (conf : num) (x y : Z) (strong : bool).

(** A BGR frame: its shape, the captured picture (opaque) and the
    overlays drawn on it so far, oldest first. *)
Record Frame : Type := {
  height : Z;
  width : Z;
  picture : nat;
  overlays : list Overlay
}.

Definition draw (o : Overlay) (f : Frame) : Frame :=
  {| height := height f; width := width f; picture := picture f;
     overlays := overlays f ++ [o] |}.

(** The number of indices selected by the slice [start:stop] of an axis
    of length [len]: negative bounds count from the end, and both bounds
    are clamped to the axis. *)
Definition slice_len (start stop len : Z) : Z :=
  let norm i := if (i <? 0)%Z then Z.max (i + len) 0 else Z.min i len in
  Z.max (norm stop - norm start) 0.

(** [frame[y:y2, x:x2].size] of a three-channel frame. *)
Definition crop_size (f : Frame) (y y2 x x2 : Z) : Z :=
  (slice_len y y2 (height f) * slice_len x x2 (width f) * 3)%Z.

(** [face_data['facial_area']], already integers. *)
Record Face : Type := { fa_x : Z; fa_y : Z; fa_w : Z; fa_h : Z }.

(** One element of the list [DeepFace.analyze] returns; the scores of
    ['emotion'] are single-precision values. *)
Record Analysis : Type := {
  a_emotion : gmap string float;
  a_dominant_emotion : string
}.

(** DeepFace and OpenCV.  [analyze] receives the frame as it is when the
    crop is taken (the crop is a view of it) and the slice bounds
    [(y, y2, x, x2)].  [cv2_rectangle] and [cv2_putText] tell whether the
    drawing call raises on the frame and the arguments it is given; what
    a call that returns has drawn is [draw]. *)
Record VisionLibs : Type := {
  extract_faces : Frame -> result (list Face);
  analyze : Frame -> Z * Z * Z * Z -> result (list Analysis);
  cv2_rectangle : Frame -> Z * Z -> Z * Z -> bool -> result unit;
  cv2_putText : Frame -> string -> num -> Z * Z -> bool -> result unit;
  imencode : Frame -> string
}.

(** What one iteration does, in program order. *)
Inductive Event : Type :=
| EvLocalize
| EvClear
| EvAnalyze (idx : nat)
| EvPut (idx : nat) (e : Entry)
| EvCaught (msg : string).

(** The state an iteration threads: the shared dictionary, the frame
    being annotated, and the log of events. *)
Record FrameState : Type := {
  current_emotions : gmap nat Entry;
  frame : Frame;
  trace : list Event
}.

(** The inner [try]: the dominant emotion and its score, or the
    exception of [analyze], of [analysis[0]] or of the dictionary
    lookup. *)
Definition classify (V : VisionLibs) (f : Frame) (box : Z * Z * Z * Z)
    : result (string * float) :=
  analysis ← analyze V f box;
  a ← match analysis with
      | a :: _ => Ok a
      | [] => Raise "list index out of range"
      end;
  match a_emotion a !! a_dominant_emotion a with
  | Some c => Ok (a_dominant_emotion a, c)
  | None => Raise (a_dominant_emotion a)
  end.

(** The body of [for idx, face_data in enumerate(faces)]: the state it
    leaves, and the exception that left it, if one did.  [confidence] is
    the classifier's single-precision score or the integer 0; on both,
    [round], the comparison with 0.5 and the formatting of the label
    return.  The entry is stored before the overlay is drawn, and the
    drawing calls are outside the inner [try]: when one of them raises,
    the entry stays and the exception goes to the outer [try], which
    ends the loop over the regions. *)
Definition process_face (V : VisionLibs) (idx : nat) (face_data : Face)
    (st : FrameState) : FrameState * option string :=
  let x := fa_x face_data in
  let y := fa_y face_data in
  let w := fa_w face_data in
  let h := fa_h face_data in
  let x2 := (x + w)%Z in
  let y2 := (y + h)%Z in
  if (crop_size (frame st) y y2 x x2 =? 0)%Z then (st, None)
  else
    let '(dominant_emotion, conf) :=
      match classify V (frame st) (y, y2, x, x2) with
      | Ok (d, c) => (d, NpF32 c)
      | Raise _ => ("unknown", PyInt 0)
      end in
    let entry := {| e_emotion := dominant_emotion;
                    e_confidence := round_num conf 2;
                    e_coords := [x; y; x2; y2] |} in
    let stored := <[idx := entry]> (current_emotions st) in
    let tr := trace st ++ [EvAnalyze idx; EvPut idx entry] in
    let strong := gt_half conf in
    match cv2_rectangle V (frame st) (x, y) (x2, y2) strong with
    | Raise e =>
        ({| current_emotions := stored; frame := frame st; trace := tr |}, Some e)
    | Ok _ =>
        let boxed := draw (Rectangle x y x2 y2 strong) (frame st) in
        match cv2_putText V boxed dominant_emotion conf (x, (y - 10)%Z) strong with
        | Raise e =>
            ({| current_emotions := stored; frame := boxed; trace := tr |}, Some e)
        | Ok _ =>
            ({| current_emotions := stored;
                frame := draw (PutText dominant_emotion conf x (y - 10) strong) boxed;
                trace := tr |}, None)
        end
    end.

(** The [for] loop from index [idx] on: it ends with the list or with
    the first exception of a body. *)
Fixpoint process_faces (V : VisionLibs) (idx : nat) (faces : list Face)
    (st : FrameState) : FrameState * option string :=
  match faces with
  | [] => (st, None)
  | face_data :: rest =>
      match process_face V idx face_data st with
      | (st', None) => process_faces V (S idx) rest st'
      | (st', Some e) => (st', Some e)
      end
  end.

(** The outer [try] of one iteration, from [extract_faces] to the end of
    the [for] loop, with its [except]. *)
Definition process_frame (V : VisionLibs) (reg : gmap nat Entry)
    (f : Frame) : FrameState :=
  match extract_faces V f with
  | Ok faces =>
      match process_faces V 0 faces
              {| current_emotions := ∅; frame := f; trace := [EvLocalize; EvClear] |}
      with
      | (st, None) => st
      | (st, Some e) =>
          {| current_emotions := current_emotions st; frame := frame st;
             trace := trace st ++ [EvCaught e] |}
      end
  | Raise e =>
      {| current_emotions := reg; frame := f; trace := [EvLocalize; EvCaught e] |}
  end.

(** The unit of the multipart stream built from an encoded frame. *)
Definition CRLF : string := String (ascii_of_nat 13) (String (ascii_of_nat 10) EmptyString).

Definition chunk (jpeg : string) : string :=
  ("--frame" ++ CRLF ++ "Content-Type: image/jpeg" ++ CRLF ++ CRLF ++ jpeg ++ CRLF)%string.

(** What the generator has done when it stops or is observed: the units
    it yielded, the dictionary it leaves, and the events of its
    iterations. *)
Record Stream : Type := {
  yielded : list string;
  final_emotions : gmap nat Entry;
  iterations : list (list Event)
}.

(** [get_frame()]: every iteration first reads the flag [camera_active]
    and then a frame; the list gives, per iteration, the value of the
    flag at that moment and the outcome of [cap.read()] ([None] when
    [ret] is false).  The loop ends with the list, at the first false
    flag, or at the first failed read. *)
Fixpoint get_frame (V : VisionLibs) (ticks : list (bool * option Frame))
    (reg : gmap nat Entry) : Stream :=
  match ticks with
  | (true, Some f) :: rest =>
      let st := process_frame V reg f in
      let s := get_frame V rest (current_emotions st) in
      {| yielded := chunk (imencode V (frame st)) :: yielded s;
         final_emotions := final_emotions s;
         iterations := trace st :: iterations s |}
  | _ => {| yielded := []; final_emotions := reg; iterations := [] |}
  end.

(** [get_emotions()]: a copy of the dictionary, taken under the lock. *)
Definition get_emotions (reg : gmap nat Entry) : gmap nat Entry := reg.

(** The dictionary after the locked sections logged in [tr] ran on
    [reg]; a reader that takes the lock between two events sees the
    dictionary after a prefix of the iteration's events. *)
Fixpoint replay (tr : list Event) (reg : gmap nat Entry) : gmap nat Entry :=
  match tr with
  | [] => reg
  | EvClear :: r => replay r ∅
  | EvPut idx e :: r => replay r (<[idx := e]> reg)
  | _ :: r => replay r reg
  end.

Definition is_localize (e : Event) : bool :=
  match e with EvLocalize => true | _ => false end.
Definition is_clear (e : Event) : bool :=
  match e with EvClear => true | _ => false end.
Definition is_analyze (e : Event) : bool :=
  match e with EvAnalyze _ => true | _ => false end.
Definition is_put (e : Event) : bool :=
  match e with EvPut _ _ => true | _ => false end.
Definition is_put_at (i : nat) (e : Event) : bool :=
  match e with EvPut j _ => Nat.eqb i j | _ => false end.

(** Every event that satisfies [q] comes after some event that
    satisfies [p]; [seen] tells whether a [p] event came before [tr]. *)
Fixpoint preceded (p q : Event -> bool) (seen : bool) (tr : list Event) : bool :=
  match tr with
  | [] => true
  | e :: r => (if q e then seen else true) && preceded p q (seen || p e) r
  end.

Definition count (p : Event -> bool) (tr : list Event) : nat :=
  length (filter (fun e => p e = true) tr).

(* ===================================================================== *)
(** ** app.py: the audio routes *)
(* ===================================================================== *)

(** What a route does besides computing its answer, in program order. *)
Inductive Effect : Type :=
| EffRecord (frames sample_rate : Z)     (* sd.rec ... sd.wait *)
| EffSaveTemp                            (* file.save(temp_path) *)
| EffDebugCopy                           (* shutil.copy(temp_path, debug_path) *)
| EffGetDetector                         (* get_detector() *)
| EffPredict                             (* detector.predict_from_audio / _file *)
| EffRemoveTemp.                         (* os.remove(temp_path) is called *)

(** The outcomes of the calls a route makes outside the detector:
    the microphone capture (its samples; the array is made with
    [dtype='float32']), [AudioEmotionDetector()], saving the upload to a
    temporary file, creating and listing the debug directory, and
    [os.path.exists(temp_path)] at the clean-up.  A failure of the debug
    copy or of [os.remove] is caught on the spot and only logged, so
    neither has an outcome here. *)
Record WebEnv : Type := {
  sd_rec : Z -> Z -> result samples;
  construct : result Detector;
  save_upload : string -> result unit;
  list_debug_dir : result nat;
  temp_exists : bool
}.

(** A response: the JSON body and the status code. *)
Definition Response : Type := Body * Z.

Definition error_only (msg : string) : Body :=
  {| emotion := None; confidence := None; probabilities := None;
     error := Some msg |}.

(** The body every [except Exception as e] of a route returns. *)
Definition route_failure (e : string) : Body :=
  {| emotion := Some "neutral"; confidence := Some zero;
     probabilities := None; error := Some e |}.

Definition not_initialized : string := "Audio detector not initialized".

(** The result of a route: the response, the new value of the global
    [_detector], and the effects. *)
Record Outcome : Type := {
  response : Response;
  detector_after : option Detector;
  effects : list Effect
}.

(** The JSON object of [/audio/record]: the keys that are present. *)
Record RecordJson : Type := {
  rj_duration : option Z;
  rj_sample_rate : option Z
}.

(** [record_audio()].  [json] is the outcome of [request.json]. *)
Definition record_audio (E : WebEnv) (L : AudioLibs)
    (_detector : option Detector) (json : result RecordJson) : Outcome :=
  match json with
  | Raise e => {| response := (route_failure e, 500%Z);
                  detector_after := _detector; effects := [] |}
  | Ok j =>
      let duration := default 7%Z (rj_duration j) in
      let sample_rate := default 22050%Z (rj_sample_rate j) in
      let n := (duration * sample_rate)%Z in
      match sd_rec E n sample_rate with
      | Raise e => {| response := (route_failure e, 500%Z);
                      detector_after := _detector;
                      effects := [EffRecord n sample_rate] |}
      | Ok audio_data =>
          match get_detector (construct E) _detector with
          | (g, None) =>
              {| response := (error_only not_initialized, 500%Z);
                 detector_after := g;
                 effects := [EffRecord n sample_rate; EffGetDetector] |}
          | (g, Some detector) =>
              {| response := (predict_from_audio L detector
                                (float32_array audio_data) sample_rate, 200%Z);
                 detector_after := g;
                 effects := [EffRecord n sample_rate; EffGetDetector; EffPredict] |}
          end
      end
  end.

(** An uploaded file: its name and its bytes. *)
Record Upload : Type := {
  filename : string;
  content : string
}.

(** [predict_audio_file()].  [file] is [request.files.get('file')]. *)
Definition predict_audio_file (E : WebEnv) (L : AudioLibs)
    (_detector : option Detector) (file : option Upload) : Outcome :=
  match file with
  | None => {| response := (error_only "No file provided", 400%Z);
               detector_after := _detector; effects := [] |}
  | Some file =>
      if String.eqb (filename file) ""
      then {| response := (error_only "No file selected", 400%Z);
              detector_after := _detector; effects := [] |}
      else
        match save_upload E (content file) with
        | Raise e => {| response := (route_failure e, 500%Z);
                        detector_after := _detector; effects := [EffSaveTemp] |}
        | Ok _ =>
            match list_debug_dir E with
            | Raise e => {| response := (route_failure e, 500%Z);
                            detector_after := _detector; effects := [EffSaveTemp] |}
            | Ok _ =>
                match get_detector (construct E) _detector with
                | (g, None) =>
                    {| response := (error_only not_initialized, 500%Z);
                       detector_after := g;
                       effects := [EffSaveTemp; EffDebugCopy; EffGetDetector] |}
                | (g, Some detector) =>
                    {| response := (predict_from_file L detector (content file), 200%Z);
                       detector_after := g;
                       effects := [EffSaveTemp; EffDebugCopy; EffGetDetector;
                                   EffPredict]
                                  ++ (if temp_exists E then [EffRemoveTemp] else []) |}
                end
            end
        end
  end.

(** The JSON object of [/audio/predict_numpy]. *)
Record NumpyJson : Type := {
  nj_audio : option samples;
  nj_sample_rate : option Z
}.

(** [predict_audio_numpy()]. *)
Definition predict_audio_numpy (E : WebEnv) (L : AudioLibs)
    (_detector : option Detector) (json : result NumpyJson) : Outcome :=
  match json with
  | Raise e => {| response := (route_failure e, 500%Z);
                  detector_after := _detector; effects := [] |}
  | Ok data =>
      let audio_array := default [] (nj_audio data) in
      let sample_rate := default 22050%Z (nj_sample_rate data) in
      if (length audio_array =? 0)%nat
      then {| response := (error_only "No audio data provided", 400%Z);
              detector_after := _detector; effects := [] |}
      else
        match get_detector (construct E) _detector with
        | (g, None) =>
            {| response := (error_only not_initialized, 500%Z);
               detector_after := g; effects := [EffGetDetector] |}
        | (g, Some detector) =>
            {| response := (predict_from_audio L detector
                              (np_array audio_array) sample_rate, 200%Z);
               detector_after := g; effects := [EffGetDetector; EffPredict] |}
        end
  end.

(** The body [audio_info()] returns when the detector is there. *)
Record Info : Type := {
  i_status : string;
  i_emotions : list string;
  i_sample_rate : Z;
  i_feature_count : Z;
  i_duration_recommended : Z
}.

(** [audio_info()]: the answer (an error body or the capabilities), the
    status code, and the new value of the global [_detector]. *)
Definition audio_info (E : WebEnv) (_detector : option Detector)
    : (Body + Info) * Z * option Detector :=
  match get_detector (construct E) _detector with
  | (g, None) => (inl (error_only not_initialized), 500%Z, g)
  | (g, Some detector) =>
      (inr {| i_status := "ready";
              i_emotions := classes_ detector;
              i_sample_rate := 22050;
              i_feature_count := 26;
              i_duration_recommended := 7 |}, 200%Z, g)
  end.

(** The three audio-prediction routes behind one call. *)
Inductive AudioRequest : Type :=
| ReqRecord (json : result RecordJson)
| ReqFile (file : option Upload)
| ReqNumpy (json : result NumpyJson).

Definition serve (E : WebEnv) (L : AudioLibs) (_detector : option Detector)
    (r : AudioRequest) : Outcome :=
  match r with
  | ReqRecord j => record_audio E L _detector j
  | ReqFile f => predict_audio_file E L _detector f
  | ReqNumpy j => predict_audio_numpy E L _detector j
  end.

(** Whether the request gets past the steps its route runs before it
    asks for the detector. *)
Definition reaches_detector (E : WebEnv) (r : AudioRequest) : bool :=
  match r with
  | ReqRecord (Ok j) =>
      negb (raises (sd_rec E (default 7%Z (rj_duration j) * default 22050%Z (rj_sample_rate j))
                      (default 22050%Z (rj_sample_rate j))))
  | ReqFile (Some f) =>
      negb (String.eqb (filename f) "") && negb (raises (save_upload E (content f)))
      && negb (raises (list_debug_dir E))
  | ReqNumpy (Ok data) => negb (length (default [] (nj_audio data)) =? 0)%nat
  | _ => false
  end.

Definition did_predict (e : Effect) : bool :=
  match e with EffPredict => true | _ => false end.

(* ===================================================================== *)
(** ** Auxiliary definitions for the proofs *)
(* ===================================================================== *)

(** The double nearest to [d]/10000. *)
Definition quotient_10000 (d : positive) : float :=
  div (S754_finite false d 0) (S754_finite false 10000 0).

(** [f] holds on the [n] positives from [p] on. *)
Fixpoint check_range (f : positive -> bool) (n : nat) (p : positive) : bool :=
  match n with
  | O => true
  | S n' => f p && check_range f n' (Pos.succ p)
  end.

(** A posterior entry: a canonical double in the unit interval. *)
Definition probability (p : float) : Prop :=
  valid p = true /\ in_unit p = true.

(** The contract of [predict_proba]: whatever it returns is a list of
    probabilities. *)
Definition posterior_ok (self : Detector) : Prop :=
  forall fs probs, model_predict_proba self fs = Ok probs -> Forall probability probs.

(** The state with which the loop over the regions of [f] starts. *)
Definition cleared (f : Frame) : FrameState :=
  {| current_emotions := ∅; frame := f; trace := [EvLocalize; EvClear] |}.

(** The frame as it is when region [i] of [faces] is reached. *)
Definition frame_before (V : VisionLibs) (f : Frame) (faces : list Face) (i : nat) : Frame :=
  frame (process_faces V 0 (take i faces) (cleared f)).1.

(** The loop over the detected regions of [f] gets to the region of
    index [i]: the bodies of the regions before it ended without an
    exception.  With [i] the number of regions, the loop ran to its
    end. *)
Definition reaches (V : VisionLibs) (f : Frame) (faces : list Face) (i : nat) : Prop :=
  (process_faces V 0 (take i faces) (cleared f)).2 = None.

(** The slice bounds of a region, [(y, y2, x, x2)]. *)
Definition box_of (face_data : Face) : Z * Z * Z * Z :=
  (fa_y face_data, (fa_y face_data + fa_h face_data)%Z,
   fa_x face_data, (fa_x face_data + fa_w face_data)%Z).

Definition box_size (f : Frame) (face_data : Face) : Z :=
  crop_size f (fa_y face_data) (fa_y face_data + fa_h face_data)
              (fa_x face_data) (fa_x face_data + fa_w face_data).

(** The entry recorded for a region whose classification failed. *)
Definition unknown_entry (face_data : Face) : Entry :=
  {| e_emotion := "unknown"; e_confidence := PyInt 0;
     e_coords := [fa_x face_data; fa_y face_data;
                  (fa_x face_data + fa_w face_data)%Z;
                  (fa_y face_data + fa_h face_data)%Z] |}.

(** The entry the loop body records for a region, given the frame as it
    is when the region is reached. *)
Definition entry_of (V : VisionLibs) (fr : Frame) (face_data : Face) : Entry :=
  let '(d, conf) :=
    match classify V fr (box_of face_data) with
    | Ok (d, c) => (d, NpF32 c)
    | Raise _ => ("unknown"%string, PyInt 0)
    end in
  {| e_emotion := d; e_confidence := round_num conf 2;
     e_coords := [fa_x face_data; fa_y face_data;
                  (fa_x face_data + fa_w face_data)%Z;
                  (fa_y face_data + fa_h face_data)%Z] |}.

(** An event of region [i0] or of a later region. *)
Definition region_event (i0 : nat) (e : Event) : Prop :=
  match e with
  | EvAnalyze j | EvPut j _ => i0 <= j
  | _ => False
  end.

(** Neither drawing call raises on the box of a region of [faces],
    whatever the frame, the label and the colour. *)
Definition draws (V : VisionLibs) (faces : list Face) : Prop :=
  forall fd, In fd faces -> forall fr d c strong,
    cv2_rectangle V fr (fa_x fd, fa_y fd)
      ((fa_x fd + fa_w fd)%Z, (fa_y fd + fa_h fd)%Z) strong = Ok tt /\
    cv2_putText V fr d c (fa_x fd, (fa_y fd - 10)%Z) strong = Ok tt.

(** Whether the crop of a region is not empty. *)
Definition nonempty_crop (f : Frame) (fd : Face) : bool :=
  negb (box_size f fd =? 0)%Z.

(** The body [predict_from_audio] returns when its [try] block raised. *)
Definition degraded (e : string) : Body :=
  {| emotion := Some "neutral"; confidence := Some zero;
     probabilities := Some ∅; error := Some e |}.


(* ===================================================================== *)
(** ** Sample inputs *)
(* ===================================================================== *)

Module Samples.
(** Libraries that pass the buffer through and return matrices of the
    documented shapes.  librosa decodes the file ["wav"] to two
    single-precision samples and the file ["empty"] to none; scipy
    decodes the file ["pcm"] to two 16-bit samples and the file
    ["silence"] to none. *)
Definition libs : AudioLibs := {|
  effects_trim := fun y _ => Ok y;
  util_normalize := fun y => Ok y;
  feature_mfcc := fun y _ n => Ok (repeat (a_data y) n);
  feature_chroma_stft := fun y _ => Ok (repeat (a_data y) 12);
  feature_zero_crossing_rate := fun y => Ok [a_data y];
  np_mean := fun l => hd zero l;
  librosa_load := fun file sr =>
    if String.eqb file "wav" then Ok (float32_array [dec 5 1; dec 25 2], sr)
    else if String.eqb file "empty" then Ok (float32_array [], sr)
    else Raise "NoBackendError";
  wavfile_read := fun file =>
    if String.eqb file "pcm" then Ok (22050%Z, [16384; 8192]%Z)
    else if String.eqb file "silence" then Ok (22050%Z, [])
    else Raise "File format not understood";
  librosa_resample := fun y _ _ => Ok y
|}.

(** A detector whose model always answers [label] with posterior [probs]. *)
Definition detector (label : string) (probs : list float) : Detector := {|
  scaler_transform := fun x => Ok x;
  model_predict := fun _ => Ok label;
  model_predict_proba := fun _ => Ok probs;
  classes_ := ["happy"; "sad"]
|}.


Definition audio : samples := [dec 5 1; dec 25 2].

(** A 480x640 frame. *)
Definition picture0 : Frame :=
  {| height := 480; width := 640; picture := 0; overlays := [] |}.

Definition face_a : Face := {| fa_x := 10; fa_y := 20; fa_w := 100; fa_h := 120 |}.
Definition face_b : Face := {| fa_x := 300; fa_y := 40; fa_w := 80; fa_h := 90 |}.
(** A degenerate box: zero width. *)
Definition face_flat : Face := {| fa_x := 200; fa_y := 50; fa_w := 0; fa_h := 60 |}.

(** A localizer that finds [faces], and a classifier that reports
    ['happy'] with the score [np.float32(score)] except on the region
    that starts at column 10, where it raises.  [cv2.rectangle] raises
    when a coordinate of the second corner does not fit a 32-bit
    integer. *)
Definition vision (faces : result (list Face)) (score : float) : VisionLibs := {|
  extract_faces := fun _ => faces;
  analyze := fun _ box =>
    if (box.1.2 =? 10)%Z then Raise "analysis failed"
    else Ok [{| a_emotion := {["happy" := NpFloat32.of_double score]};
                a_dominant_emotion := "happy" |}];
  cv2_rectangle := fun _ _ pt2 _ =>
    if (2147483647 <? pt2.1)%Z || (2147483647 <? pt2.2)%Z
    then Raise "Can't parse 'pt2'" else Ok tt;
  cv2_putText := fun _ _ _ _ _ => Ok tt;
  imencode := fun f => "jpeg"
|}.

(** A process in which the detector cannot be built, and one in which
    it can. *)
Definition env (c : result Detector) : WebEnv := {|
  sd_rec := fun _ _ => Ok audio;
  construct := c;
  save_upload := fun _ => Ok tt;
  list_debug_dir := Ok 0%nat;
  temp_exists := true
|}.

Definition missing : result Detector := Raise "svm_model.pkl".

(** U+00A0, the no-break space, in UTF-8. *)
Definition nbsp : string :=
  String (ascii_of_nat 194) (String (ascii_of_nat 160) EmptyString).
End Samples.

(* ===================================================================== *)
(** * Properties *)
(* ===================================================================== *)

(** ** Binary64 facts *)

Section FloatFacts.
Local Open Scope Z_scope.

Lemma one_repr : one = S754_finite false 4503599627370496 (-52).
Proof. reflexivity. Qed.

Lemma lit_0_15_repr : dec 15 2 = S754_finite false 5404319552844595 (-55).
Proof. reflexivity. Qed.

Lemma digits2_pos_bounds (m : positive) :
  2 ^ (Zpos (digits2_pos m) - 1) <= Zpos m < 2 ^ Zpos (digits2_pos m).
Proof.
  induction m as [p IH | p IH | ]; cbn [digits2_pos].
  - rewrite Pos2Z.inj_succ.
    replace (Z.succ (Z.pos (digits2_pos p)) - 1)
      with (Z.succ (Z.pos (digits2_pos p) - 1)) by lia.
    rewrite !Z.pow_succ_r by lia. lia.
  - rewrite Pos2Z.inj_succ.
    replace (Z.succ (Z.pos (digits2_pos p)) - 1)
      with (Z.succ (Z.pos (digits2_pos p) - 1)) by lia.
    rewrite !Z.pow_succ_r by lia. lia.
  - cbn. lia.
Qed.

(** A canonical mantissa has at most 53 bits. *)
Lemma valid_mantissa_lt s m e :
  valid (S754_finite s m e) = true -> Zpos m < 2 ^ 53.
Proof.
  unfold valid, valid_binary, bounded, canonical_mantissa, fexp, emin, prec, emax.
  intros H. apply andb_true_iff in H as [H _]. apply Z.eqb_eq in H.
  pose proof (digits2_pos_bounds m) as [_ Hm].
  eapply Z.lt_le_trans; [exact Hm|].
  apply Z.pow_le_mono_r; lia.
Qed.

Lemma round_half_even_bounds n d k :
  0 < d -> 0 <= n <= k * d -> 0 <= k -> 0 <= round_half_even n d <= k.
Proof.
  intros Hd Hn Hk. unfold round_half_even.
  pose proof (Z.div_mod n d ltac:(lia)) as Hdm.
  pose proof (Z.mod_pos_bound n d Hd) as Hr.
  assert (Hq0 : 0 <= n / d) by (apply Z.div_pos; lia).
  assert (Hqk : n / d <= k) by (apply Z.div_le_upper_bound; lia).
  destruct (Z.compare_spec (2 * (n mod d)) d) as [He|Hl|Hg].
  - assert (n / d < k) by nia. destruct (Z.even (n / d)); lia.
  - lia.
  - assert (n / d < k) by nia. lia.
Qed.

Lemma check_range_spec f n : forall p,
  check_range f n p = true ->
  forall q, Zpos p <= Zpos q < Zpos p + Z.of_nat n -> f q = true.
Proof.
  induction n as [|n IH]; intros p H q Hq; [lia|].
  cbn [check_range] in H. apply andb_true_iff in H as [Hp Hr].
  destruct (Pos.eq_dec p q) as [->|Hne]; [exact Hp|].
  apply (IH (Pos.succ p) Hr). lia.
Qed.

(** The doubles nearest to [d]/10000, for [d] from 1 to 10000, all lie
    in the unit interval. *)
Lemma quotient_10000_table :
  check_range (fun d => in_unit (quotient_10000 d)) (Z.to_nat 10000) 1 = true.
Proof. vm_compute. reflexivity. Qed.

Lemma quotient_10000_unit (d : positive) :
  Zpos d <= 10000 -> in_unit (quotient_10000 d) = true.
Proof.
  intros Hd.
  pose proof (check_range_spec (fun d => in_unit (quotient_10000 d))
                (Z.to_nat 10000) 1 quotient_10000_table d) as H.
  rewrite Z2Nat.id in H by discriminate.
  apply H. split; [destruct d; discriminate | exact (Zorder.Zle_lt_succ _ _ Hd)].
Qed.

(** In the unit interval a canonical double is [m * 2^e] with
    [m <= 2^(-e)]. *)
Lemma in_unit_finite s m e :
  valid (S754_finite s m e) = true ->
  in_unit (S754_finite s m e) = true ->
  s = false /\ e < 0 /\ Zpos m <= 2 ^ (- e).
Proof.
  intros Hv Hu. pose proof (valid_mantissa_lt _ _ _ Hv) as Hm.
  unfold in_unit in Hu. apply andb_true_iff in Hu as [H0 H1].
  rewrite one_repr in H1.
  unfold leb, SFleb, SFcompare, zero in H0, H1.
  destruct s; [discriminate|].
  split; [reflexivity|].
  destruct (Z.compare_spec e (-52)) as [He|He|He]; try discriminate.
  - subst e. split; [lia|].
    rewrite Pos.compare_cont_spec in H1. cbn [Pos.switch_Eq] in H1.
    change (2 ^ (- -52)) with 4503599627370496.
    destruct (Pos.compare_spec m 4503599627370496) as [E|E|E];
      [subst m; reflexivity | apply Z.lt_le_incl; exact E | discriminate H1].
  - split; [lia|].
    apply Z.lt_le_incl. eapply Z.lt_le_trans; [exact Hm|].
    apply Z.pow_le_mono_r; lia.
Qed.

(** Rounding a probability to four decimals keeps it in the unit
    interval. *)
Lemma py_round_4_unit (x : float) :
  valid x = true -> in_unit x = true -> in_unit (py_round x 4) = true.
Proof.
  intros Hv Hu. destruct x as [s | s | | s m e]; try exact Hu.
  destruct (in_unit_finite _ _ _ Hv Hu) as (-> & He & Hm).
  unfold py_round.
  replace (0 <=? e) with false by (symmetry; apply Z.leb_gt; exact He).
  change (10 ^ 4) with 10000.
  assert (HD : 0 < 2 ^ (- e)) by (apply Z.pow_pos_nonneg; lia).
  pose proof (round_half_even_bounds (Zpos m * 10000) (2 ^ (- e)) 10000 HD
                ltac:(lia) ltac:(lia)) as Hb.
  destruct (round_half_even (Zpos m * 10000) (2 ^ (- e))) as [|dp|dp].
  - reflexivity.
  - apply quotient_10000_unit. lia.
  - lia.
Qed.

Lemma np_maximum_cases a b : np_maximum a b = a \/ np_maximum a b = b.
Proof. unfold np_maximum. destruct (leb b a || is_nan a); auto. Qed.

(** [np.max] returns one of the entries. *)
Lemma np_max_In (l : list float) c : np_max l = Some c -> In c l.
Proof.
  destruct l as [|x xs]; [discriminate|]. cbn [np_max]. intros [= <-].
  revert x. induction xs as [|y ys IH]; intros x; cbn [fold_left].
  - left; reflexivity.
  - destruct (IH (np_maximum x y)) as [H|H].
    + rewrite <- H.
      destruct (np_maximum_cases x y) as [E|E]; rewrite E; [left | right; left]; reflexivity.
    + right; right; exact H.
Qed.
End FloatFacts.

(** ** The error monad *)

Lemma bind_Ok {A B} (m : result A) (f : A -> result B) b :
  m ≫= f = Ok b -> exists a, m = Ok a /\ f a = Ok b.
Proof. destruct m as [a|e]; [intros H; exists a; auto | discriminate]. Qed.

Lemma bind_Raise {A B} (m : result A) (f : A -> result B) e :
  m ≫= f = Raise e -> m = Raise e \/ exists a, m = Ok a /\ f a = Raise e.
Proof. destruct m as [a|e']; intros H; [right; exists a; auto | left; injection H as ->; reflexivity]. Qed.

Ltac bind_inv H :=
  let a := fresh "v" in
  let E := fresh "E" in
  apply bind_Ok in H as (a & E & H).

(** ** predict_from_audio *)

(** What a successful run of the [try] block went through. *)
Lemma predict_from_audio_try_Ok L self audio sr b :
  predict_from_audio_try L self audio sr = Ok b ->
  exists features fs prediction probs pmax,
    a_data audio <> [] /\
    extract_features_from_audio L audio sr = Ok features /\
    scaler_transform self features = Ok fs /\
    model_predict self fs = Ok prediction /\
    model_predict_proba self fs = Ok probs /\
    np_max probs = Some pmax /\
    b = {| emotion := Some (strip (gate prediction pmax).1);
           confidence := Some (py_round (gate prediction pmax).2 4);
           probabilities := Some (prob_dict (classes_ self) probs);
           error := None |}.
Proof.
  unfold predict_from_audio_try. intros H.
  bind_inv H. bind_inv H. bind_inv H. bind_inv H. bind_inv H. bind_inv H.
  destruct (np_max v3) as [c|] eqn:Hmax; [|discriminate].
  injection E4 as <-.
  exists v0, v1, v2, v3, c.
  assert (a_data audio <> []).
  { unfold log_audio_statistics in E. intros Hnil. rewrite Hnil in E. discriminate. }
  destruct (gate v2 c) as [p' c'] eqn:Hg. injection H as <-.
  repeat split; auto.
Qed.

(** C1 (amended).  When the [try] block of [predict_from_audio]
    completes, the features of the buffer were extracted and scaled and
    the model returned a label [prediction] and a posterior on the scaled
    features; let [pmax] be the maximum of that posterior.  If
    [pmax < 0.15] the returned label is "neutral" and the returned
    confidence is exactly 0.15.  Otherwise the returned label is
    [prediction] with surrounding whitespace stripped, and the returned
    confidence is [pmax] rounded to four decimals.  When the posterior
    entries are probabilities, the returned confidence lies in [0,1]. *)
Theorem predict_from_audio_gate L self audio sr b :
  predict_from_audio_try L self audio sr = Ok b ->
  exists features fs prediction probs pmax,
    extract_features_from_audio L audio sr = Ok features /\
    scaler_transform self features = Ok fs /\
    model_predict self fs = Ok prediction /\
    model_predict_proba self fs = Ok probs /\
    np_max probs = Some pmax /\
    (ltb pmax (dec 15 2) = true ->
       emotion b = Some "neutral" /\ confidence b = Some (dec 15 2)) /\
    (ltb pmax (dec 15 2) = false ->
       emotion b = Some (strip prediction) /\
       confidence b = Some (py_round pmax 4)) /\
    (Forall probability probs ->
       exists c, confidence b = Some c /\ in_unit c = true).
Proof.
  intros H.
  destruct (predict_from_audio_try_Ok _ _ _ _ _ H)
    as (features & fs & prediction & probs & pmax & _ & Hx & Hs & Hp & Hpr & Hmax & ->).
  exists features, fs, prediction, probs, pmax.
  repeat (split; [assumption|]).
  unfold gate. cbn [emotion confidence].
  destruct (ltb pmax (dec 15 2)) eqn:Hlt; cbn [fst snd].
  - split; [intros _; split; reflexivity|].
    split; [discriminate|].
    intros _. exists (dec 15 2). split; reflexivity.
  - split; [discriminate|].
    split; [intros _; split; reflexivity|].
    intros Hall. exists (py_round pmax 4). split; [reflexivity|].
    apply np_max_In in Hmax. apply list_elem_of_In in Hmax.
    rewrite Forall_forall in Hall. destruct (Hall _ Hmax) as [Hv Hu].
    apply py_round_4_unit; assumption.
Qed.

Lemma predict_from_audio_gate_witness :
  let low := predict_from_audio Samples.libs
               (Samples.detector "angry" (repeat (dec 125 3) 8))
               (np_array Samples.audio) 22050 in
  let high := predict_from_audio Samples.libs
                (Samples.detector "happy" [dec 7 1; dec 3 1])
                (np_array Samples.audio) 22050 in
  (emotion low = Some "neutral" /\ confidence low = Some (dec 15 2)) /\
  (emotion high = Some "happy" /\ confidence high = Some (dec 7 1)).
Proof.
  intros low high. split.
  - destruct (predict_from_audio_gate Samples.libs
                (Samples.detector "angry" (repeat (dec 125 3) 8))
                (np_array Samples.audio) 22050 low)
      as (features & fs & prediction & probs & pmax & _ & _ & _ & Hpr & Hmax & Hlow & _).
    + vm_compute. reflexivity.
    + injection Hpr as <-. vm_compute in Hmax. injection Hmax as <-.
      apply Hlow. reflexivity.
  - destruct (predict_from_audio_gate Samples.libs
                (Samples.detector "happy" [dec 7 1; dec 3 1])
                (np_array Samples.audio) 22050 high)
      as (features & fs & prediction & probs & pmax & _ & _ & Hp & Hpr & Hmax & _ & Hhigh & _).
    + vm_compute. reflexivity.
    + injection Hp as <-. injection Hpr as <-. vm_compute in Hmax. injection Hmax as <-.
      apply Hhigh. reflexivity.
Defined.

(** C1 as stated fails.  With the maximum posterior 0.55555, which is
    not below 0.15, the call completes and returns the confidence 0.5555,
    not the maximum posterior; and a model label with a leading blank is
    returned without the blank. *)
Lemma predict_from_audio_gate_counterexample :
  let probs := [dec 55555 5; dec 44445 5] in
  let b := predict_from_audio Samples.libs (Samples.detector " happy" probs)
             (np_array Samples.audio) 22050 in
  error b = None /\
  np_max probs = Some (dec 55555 5) /\
  ltb (dec 55555 5) (dec 15 2) = false /\
  confidence b = Some (dec 5555 4) /\
  dec 5555 4 <> dec 55555 5 /\
  emotion b = Some "happy" /\
  "happy"%string <> " happy"%string.
Proof.
  cbv zeta.
  repeat split; try (vm_compute; reflexivity); vm_compute; discriminate.
Qed.

(** ** The frame loop *)

Section FrameFacts.
Variable V : VisionLibs.

Lemma box_size_dims f g fd :
  height f = height g -> width f = width g -> box_size f fd = box_size g fd.
Proof. unfold box_size, crop_size. intros -> ->. reflexivity. Qed.

(** The ways through the loop body: the region is skipped, or its entry
    is stored and the overlay is drawn as far as the drawing calls allow. *)
Lemma process_face_cases i fd st :
  (box_size (frame st) fd = 0%Z /\ process_face V i fd st = (st, None)) \/
  (box_size (frame st) fd <> 0%Z /\
   current_emotions (process_face V i fd st).1
     = <[i := entry_of V (frame st) fd]> (current_emotions st) /\
   trace (process_face V i fd st).1
     = trace st ++ [EvAnalyze i; EvPut i (entry_of V (frame st) fd)]).
Proof.
  unfold process_face, box_size, entry_of, box_of.
  destruct (Z.eqb_spec (crop_size (frame st) (fa_y fd) (fa_y fd + fa_h fd)
                          (fa_x fd) (fa_x fd + fa_w fd)) 0) as [E|E].
  - left. auto.
  - right. split; [exact E|].
    destruct (classify V (frame st) _) as [[d c]|msg];
      destruct (cv2_rectangle V _ _ _ _) as [u|e1]; try (cbn; auto; fail);
      destruct (cv2_putText V _ _ _ _ _) as [u'|e2]; cbn; auto.
Qed.

Lemma process_face_dims i fd st :
  height (frame (process_face V i fd st).1) = height (frame st) /\
  width (frame (process_face V i fd st).1) = width (frame st).
Proof.
  unfold process_face.
  destruct (crop_size _ _ _ _ _ =? 0)%Z; [auto|].
  destruct (classify V (frame st) _) as [[d c]|msg];
    destruct (cv2_rectangle V _ _ _ _) as [u|e1]; try (cbn; auto; fail);
    destruct (cv2_putText V _ _ _ _ _) as [u'|e2]; cbn; auto.
Qed.

(** When the drawing calls do not raise on its box, the body of a region
    ends without exception. *)
Lemma process_face_draws i fd st :
  draws V [fd] -> (process_face V i fd st).2 = None.
Proof.
  intros Hd. specialize (Hd fd (or_introl eq_refl)).
  unfold process_face.
  destruct (crop_size _ _ _ _ _ =? 0)%Z; [reflexivity|].
  destruct (classify V (frame st) _) as [[d c]|msg].
  - destruct (Hd (frame st) d (NpF32 c) (gt_half (NpF32 c))) as [-> _].
    destruct (Hd (draw (Rectangle (fa_x fd) (fa_y fd) (fa_x fd + fa_w fd)
                          (fa_y fd + fa_h fd) (gt_half (NpF32 c))) (frame st))
                d (NpF32 c) (gt_half (NpF32 c))) as [_ ->].
    reflexivity.
  - destruct (Hd (frame st) "unknown"%string (PyInt 0) (gt_half (PyInt 0))) as [-> _].
    destruct (Hd (draw (Rectangle (fa_x fd) (fa_y fd) (fa_x fd + fa_w fd)
                          (fa_y fd + fa_h fd) (gt_half (PyInt 0))) (frame st))
                "unknown"%string (PyInt 0) (gt_half (PyInt 0))) as [_ ->].
    reflexivity.
Qed.

Lemma process_faces_dims faces : forall i st,
  height (frame (process_faces V i faces st).1) = height (frame st) /\
  width (frame (process_faces V i faces st).1) = width (frame st).
Proof.
  induction faces as [|fd rest IH]; intros i st; cbn [process_faces]; [auto|].
  destruct (process_face_dims i fd st) as [Hh Hw].
  destruct (process_face V i fd st) as [st' [e|]]; cbn [fst] in *; [auto|].
  destruct (IH (S i) st') as [-> ->]. auto.
Qed.

Lemma process_faces_draws faces : forall i st,
  draws V faces -> (process_faces V i faces st).2 = None.
Proof.
  induction faces as [|fd rest IH]; intros i st Hd; cbn [process_faces]; [reflexivity|].
  assert (H1 : (process_face V i fd st).2 = None).
  { apply process_face_draws. intros g [<-|[]]. apply Hd. left. reflexivity. }
  destruct (process_face V i fd st) as [st' [e|]]; [discriminate|].
  apply IH. intros g Hg. apply Hd. right. exact Hg.
Qed.

(** The loop over a list that is continued: it goes on after the first
    part only when that part ended without exception. *)
Lemma process_faces_app l1 l2 : forall i st,
  process_faces V i (l1 ++ l2) st
  = match process_faces V i l1 st with
    | (st', None) => process_faces V (i + length l1) l2 st'
    | (st', Some e) => (st', Some e)
    end.
Proof.
  induction l1 as [|fd l1 IH]; intros i st; cbn [process_faces app length].
  - f_equal. lia.
  - destruct (process_face V i fd st) as [st' [e|]]; [reflexivity|].
    rewrite IH. replace (S i + length l1) with (i + S (length l1)) by lia.
    reflexivity.
Qed.

(** A loop that gets to a region got to every region before it. *)
Lemma reaches_le f faces i k :
  reaches V f faces k -> i <= k -> reaches V f faces i.
Proof.
  unfold reaches. intros Hk Hle.
  replace (take i faces) with (take i (take k faces))
    by (rewrite take_take; f_equal; lia).
  rewrite <- (take_drop i (take k faces)) in Hk. rewrite process_faces_app in Hk.
  destruct (process_faces V 0 (take i (take k faces)) (cleared f)) as [st' [e|]];
    [discriminate|reflexivity].
Qed.

(** When the drawing calls return on the regions before [i], the loop
    gets to region [i]. *)
Lemma draws_reaches f faces i : draws V (take i faces) -> reaches V f faces i.
Proof. apply process_faces_draws. Qed.

(** The loop only appends events of its own regions, and the
    dictionary it leaves is the one its locked sections produce. *)
Lemma process_faces_trace faces : forall i st,
  exists ext,
    trace (process_faces V i faces st).1 = trace st ++ ext /\
    Forall (region_event i) ext /\
    current_emotions (process_faces V i faces st).1
      = replay ext (current_emotions st).
Proof.
  induction faces as [|fd rest IH]; intros i st; cbn [process_faces].
  - exists []. rewrite app_nil_r. repeat split; constructor.
  - assert (Hstep : exists ext1,
              trace (process_face V i fd st).1 = trace st ++ ext1 /\
              Forall (region_event i) ext1 /\
              current_emotions (process_face V i fd st).1
                = replay ext1 (current_emotions st)).
    { destruct (process_face_cases i fd st) as [[_ E]|(_ & Ec & Et)].
      - rewrite E. exists []. rewrite app_nil_r. repeat split; constructor.
      - exists [EvAnalyze i; EvPut i (entry_of V (frame st) fd)].
        split; [exact Et|]. split; [repeat constructor|]. rewrite Ec. reflexivity. }
    destruct Hstep as (ext1 & Ht1 & Hf1 & Hc1).
    destruct (process_face V i fd st) as [st' [e|]]; cbn [fst] in *.
    + exists ext1. auto.
    + destruct (IH (S i) st') as (ext & Ht & Hf & Hc).
      exists (ext1 ++ ext). rewrite Ht, Ht1, <- app_assoc. split; [reflexivity|]. split.
      * apply Forall_app. split; [exact Hf1|].
        eapply Forall_impl; [exact Hf|]. intros []; cbn; lia.
      * rewrite Hc, Hc1. clear. revert ext. generalize (current_emotions st).
        induction ext1 as [|ev ext1 IH1]; intros reg ext; [reflexivity|].
        destruct ev; cbn [app replay]; apply IH1.
Qed.

Lemma replay_region_lt ext : forall i reg j,
  Forall (region_event i) ext -> j < i -> replay ext reg !! j = reg !! j.
Proof.
  induction ext as [|e ext IH]; intros i reg j Hf Hj; [reflexivity|].
  apply Forall_cons in Hf as [He Hf].
  destruct e; cbn in He; try contradiction; cbn [replay].
  - eauto.
  - rewrite (IH i _ j Hf Hj). apply lookup_insert_ne. lia.
Qed.

Lemma count_app p l1 l2 : count p (l1 ++ l2) = count p l1 + count p l2.
Proof. unfold count. rewrite filter_app, length_app. reflexivity. Qed.

Lemma count_cons p e l :
  count p (e :: l) = (if p e then 1 else 0) + count p l.
Proof.
  unfold count. rewrite filter_cons.
  destruct (decide (p e = true)) as [E|E].
  - rewrite E. reflexivity.
  - destruct (p e); [congruence|reflexivity].
Qed.

Lemma count_zero p l : Forall (fun e => p e = false) l -> count p l = 0.
Proof.
  unfold count. induction 1 as [|e l He _ IH]; [reflexivity|].
  rewrite filter_cons. destruct (decide (p e = true)) as [E|E]; [congruence|].
  exact IH.
Qed.

Lemma region_event_not i e :
  region_event i e -> is_clear e = false /\ is_localize e = false.
Proof. destruct e; cbn; intros; try contradiction; auto. Qed.

Lemma region_event_not_put i j e :
  region_event i e -> j < i -> is_put_at j e = false.
Proof.
  destruct e; cbn; intros; try contradiction; auto.
  apply Nat.eqb_neq. lia.
Qed.

Lemma preceded_seen p q tr : preceded p q true tr = true.
Proof.
  induction tr as [|e tr IH]; [reflexivity|]. cbn [preceded orb].
  rewrite IH. destruct (q e); reflexivity.
Qed.

(** A region whose crop is empty leaves no entry and no write. *)
Lemma process_faces_skip faces : forall k i st fd,
  faces !! k = Some fd ->
  box_size (frame st) fd = 0%Z ->
  exists ext,
    trace (process_faces V i faces st).1 = trace st ++ ext /\
    count (is_put_at (i + k)) ext = 0 /\
    current_emotions (process_faces V i faces st).1 !! (i + k)
      = current_emotions st !! (i + k).
Proof.
  induction faces as [|fd0 rest IH]; intros k i st fd Hk Hz; [discriminate|].
  cbn [process_faces]. destruct k as [|k].
  - injection Hk as ->.
    destruct (process_face_cases i fd st) as [[_ E]|[Hn _]]; [|contradiction].
    rewrite E.
    destruct (process_faces_trace rest (S i) st) as (ext & Ht & Hf & Hc).
    exists ext. split; [exact Ht|]. rewrite Nat.add_0_r. split.
    + apply count_zero. eapply Forall_impl; [exact Hf|].
      intros e He. eapply region_event_not_put; [exact He|lia].
    + rewrite Hc. apply (replay_region_lt ext (S i)); [exact Hf|lia].
  - cbn in Hk.
    destruct (process_face_dims i fd0 st) as [Hh Hw].
    assert (Hstep : exists ext1,
              trace (process_face V i fd0 st).1 = trace st ++ ext1 /\
              count (is_put_at (i + S k)) ext1 = 0 /\
              current_emotions (process_face V i fd0 st).1 !! (i + S k)
                = current_emotions st !! (i + S k)).
    { destruct (process_face_cases i fd0 st) as [[_ E]|(_ & Ec & Et)].
      - rewrite E. exists []. rewrite app_nil_r. auto.
      - exists [EvAnalyze i; EvPut i (entry_of V (frame st) fd0)].
        split; [exact Et|]. split.
        + rewrite !count_cons. cbn [is_put_at].
          replace (i + S k =? i) with false by (symmetry; apply Nat.eqb_neq; lia).
          reflexivity.
        + rewrite Ec. apply lookup_insert_ne. lia. }
    destruct Hstep as (ext1 & Ht1 & Hc1 & Hl1).
    destruct (process_face V i fd0 st) as [st' [e|]]; cbn [fst] in *.
    + exists ext1. auto.
    + assert (Hz' : box_size (frame st') fd = 0%Z).
      { rewrite (box_size_dims _ (frame st)); assumption. }
      destruct (IH k (S i) st' fd Hk Hz') as (ext & Ht & Hcnt & Hl).
      replace (i + S k) with (S i + k) in * by lia.
      exists (ext1 ++ ext). rewrite Ht, Ht1, <- app_assoc. split; [reflexivity|]. split.
      * rewrite count_app, Hcnt, Hc1. reflexivity.
      * rewrite Hl, Hl1. reflexivity.
Qed.

(** A region whose crop is not empty and that the loop reaches gets its
    entry, whatever happened to the classification of the regions before
    it and whatever happens from its own overlay on. *)
Lemma process_faces_entry faces : forall k i st fd,
  faces !! k = Some fd ->
  box_size (frame st) fd <> 0%Z ->
  (process_faces V i (take k faces) st).2 = None ->
  current_emotions (process_faces V i faces st).1 !! (i + k)
    = Some (entry_of V (frame (process_faces V i (take k faces) st).1) fd).
Proof.
  induction faces as [|fd0 rest IH]; intros k i st fd Hk Hz Hr; [discriminate|].
  destruct k as [|k].
  - injection Hk as ->. cbn [take process_faces fst].
    destruct (process_face_cases i fd st) as [[Hn _]|(_ & Ec & _)]; [contradiction|].
    rewrite Nat.add_0_r.
    destruct (process_face V i fd st) as [st' [e|]]; cbn [fst] in *.
    + rewrite Ec. apply lookup_insert_eq.
    + destruct (process_faces_trace rest (S i) st') as (ext & _ & Hf & Hc).
      rewrite Hc, (replay_region_lt ext (S i)) by (auto; lia).
      rewrite Ec. apply lookup_insert_eq.
  - cbn in Hk. cbn [take process_faces] in *.
    destruct (process_face_dims i fd0 st) as [Hh Hw].
    destruct (process_face V i fd0 st) as [st' [e|]]; cbn [fst snd] in *; [discriminate|].
    replace (i + S k) with (S i + k) by lia.
    apply IH; [exact Hk| |exact Hr].
    rewrite (box_size_dims _ (frame st)); assumption.
Qed.
End FrameFacts.

Lemma process_frame_Ok V reg f faces :
  extract_faces V f = Ok faces ->
  current_emotions (process_frame V reg f)
    = current_emotions (process_faces V 0 faces (cleared f)).1 /\
  frame (process_frame V reg f) = frame (process_faces V 0 faces (cleared f)).1 /\
  trace (process_frame V reg f)
    = trace (process_faces V 0 faces (cleared f)).1
      ++ match (process_faces V 0 faces (cleared f)).2 with
         | Some e => [EvCaught e]
         | None => []
         end.
Proof.
  unfold process_frame. intros ->. fold (cleared f).
  destruct (process_faces V 0 faces (cleared f)) as [st [e|]]; cbn [fst snd].
  - auto.
  - rewrite app_nil_r. auto.
Qed.

Lemma append_length a b :
  String.length (a ++ b)%string = String.length a + String.length b.
Proof.
  induction a as [|c a IH]; [reflexivity|].
  simpl. rewrite IH. reflexivity.
Qed.

Lemma process_frame_Raise V reg f e :
  extract_faces V f = Raise e ->
  process_frame V reg f
  = {| current_emotions := reg; frame := f; trace := [EvLocalize; EvCaught e] |}.
Proof. unfold process_frame. intros ->. reflexivity. Qed.

(** C3 (amended).  In an iteration whose localizer call returns, the
    registry is cleared exactly once, after the localizer was invoked and
    before any region is analysed or written: every put of the frame comes
    after the reset.  In an iteration whose localizer call raises, the
    registry is not cleared and nothing is written. *)
Theorem registry_reset_order V reg f :
  let tr := trace (process_frame V reg f) in
  match extract_faces V f with
  | Ok _ =>
      count is_clear tr = 1 /\
      preceded is_localize is_clear false tr = true /\
      preceded is_clear is_analyze false tr = true /\
      preceded is_clear is_put false tr = true
  | Raise _ =>
      count is_clear tr = 0 /\ count is_analyze tr = 0 /\ count is_put tr = 0
  end.
Proof.
  cbv zeta. destruct (extract_faces V f) as [faces|e] eqn:E.
  - destruct (process_frame_Ok _ reg _ _ E) as (_ & _ & ->).
    destruct (process_faces_trace V faces 0 (cleared f)) as (ext & -> & Hf & _).
    cbn [cleared trace app]. repeat split.
    + rewrite !count_cons, count_app. cbn [is_clear].
      rewrite count_zero.
      * destruct (process_faces V 0 faces (cleared f)).2; reflexivity.
      * eapply Forall_impl; [exact Hf|]. intros x Hx.
        apply (region_event_not _ _ Hx).
    + cbn. apply preceded_seen.
    + cbn. apply preceded_seen.
    + cbn. apply preceded_seen.
  - rewrite (process_frame_Raise _ _ _ _ E). cbn [trace].
    repeat split; reflexivity.
Qed.

(** C3 as stated fails.  In an iteration that finds one face the
    localizer is invoked before the registry is cleared, and in an
    iteration whose localizer call raises the registry is not cleared at
    all. *)
Lemma registry_reset_order_counterexample :
  preceded is_clear is_localize false
    (trace (process_frame (Samples.vision (Ok [Samples.face_b]) (dec 973 1)) ∅
              Samples.picture0)) = false /\
  count is_clear
    (trace (process_frame (Samples.vision (Raise "no detector") (dec 973 1)) ∅
              Samples.picture0)) = 0.
Proof. split; reflexivity. Qed.





(** C8.  A detected region whose crop has zero size leaves no entry in
    the registry at its index, and nothing is written for it. *)
Theorem empty_crop_skipped V reg f faces i fd :
  extract_faces V f = Ok faces ->
  faces !! i = Some fd ->
  box_size f fd = 0%Z ->
  current_emotions (process_frame V reg f) !! i = None /\
  count (is_put_at i) (trace (process_frame V reg f)) = 0.
Proof.
  intros E Hi Hz. destruct (process_frame_Ok _ reg _ _ E) as (-> & _ & ->).
  destruct (process_faces_skip V faces i 0 (cleared f) fd Hi Hz)
    as (ext & -> & Hc & Hl).
  cbn [Nat.add] in Hc, Hl. split.
  - rewrite Hl. apply lookup_empty.
  - cbn [cleared trace app]. rewrite !count_cons, count_app, Hc.
    destruct (process_faces V 0 faces (cleared f)).2; reflexivity.
Qed.

Lemma empty_crop_skipped_witness :
  let V := Samples.vision (Ok [Samples.face_a; Samples.face_flat; Samples.face_b])
             (dec 973 1) in
  current_emotions (process_frame V ∅ Samples.picture0) !! 1 = None /\
  count (is_put_at 1) (trace (process_frame V ∅ Samples.picture0)) = 0.
Proof.
  intros V.
  apply (empty_crop_skipped V ∅ Samples.picture0
           [Samples.face_a; Samples.face_flat; Samples.face_b] 1 Samples.face_flat);
    reflexivity.
Defined.

(** C10.  While the localizer raises, the registry stays as it was:
    after any number of such iterations the dictionary is the one the loop
    started with, and a query taken at any moment of any of these
    iterations returns it. *)
Theorem localizer_failure_keeps_registry V reg ticks :
  (forall f, In (true, Some f) ticks -> raises (extract_faces V f) = true) ->
  final_emotions (get_frame V ticks reg) = reg /\
  Forall (fun tr => forall k, get_emotions (replay (take k tr) reg) = reg)
    (iterations (get_frame V ticks reg)).
Proof.
  induction ticks as [|[active rd] rest IH]; intros H.
  - split; [reflexivity|constructor].
  - cbn [get_frame]. destruct active; [|split; [reflexivity|constructor]].
    destruct rd as [f|]; [|split; [reflexivity|constructor]].
    assert (Hf : raises (extract_faces V f) = true) by (apply H; left; reflexivity).
    destruct (extract_faces V f) as [faces|e] eqn:E; [discriminate|].
    rewrite (process_frame_Raise _ _ _ _ E). cbn [current_emotions trace].
    destruct IH as [IH1 IH2]; [intros g Hg; apply H; right; exact Hg|].
    cbn [final_emotions iterations]. split; [exact IH1|].
    constructor; [|exact IH2].
    intros [|[|[|k]]]; reflexivity.
Qed.

Lemma localizer_failure_keeps_registry_witness :
  let V := Samples.vision (Raise "no detector") (dec 973 1) in
  let reg : gmap nat Entry := {[ 0 := unknown_entry Samples.face_a ]} in
  let ticks := [(true, Some Samples.picture0); (true, Some Samples.picture0)] in
  final_emotions (get_frame V ticks reg) = reg /\
  Forall (fun tr => forall k, get_emotions (replay (take k tr) reg) = reg)
    (iterations (get_frame V ticks reg)).
Proof.
  intros V reg ticks.
  apply (localizer_failure_keeps_registry V reg ticks).
  intros f _. reflexivity.
Defined.

(** ** Confidence ranges *)

Lemma predict_from_audio_unit L self audio sr :
  posterior_ok self ->
  exists c, confidence (predict_from_audio L self audio sr) = Some c /\
            in_unit c = true.
Proof.
  intros Hpost. unfold predict_from_audio.
  destruct (predict_from_audio_try L self audio sr) as [b|e] eqn:E.
  - destruct (predict_from_audio_try_Ok _ _ _ _ _ E)
      as (features & fs & prediction & probs & pmax & _ & _ & _ & _ & Hpr & Hmax & ->).
    cbn [confidence]. eexists. split; [reflexivity|].
    unfold gate. destruct (ltb pmax (dec 15 2)); cbn [snd]; [reflexivity|].
    apply np_max_In, list_elem_of_In in Hmax.
    pose proof (Hpost _ _ Hpr) as Hall. rewrite Forall_forall in Hall.
    destruct (Hall _ Hmax). apply py_round_4_unit; assumption.
  - exists zero. split; reflexivity.
Qed.

(** Every put of an iteration stores an entry built by the loop body. *)
Lemma process_faces_puts V faces : forall i st j e,
  In (EvPut j e) (trace (process_faces V i faces st).1) ->
  In (EvPut j e) (trace st) \/ exists fr fd, e = entry_of V fr fd.
Proof.
  induction faces as [|fd0 rest IH]; intros i st j e H; cbn [process_faces] in H.
  - left; exact H.
  - assert (Hstep : In (EvPut j e) (trace (process_face V i fd0 st).1) ->
                    In (EvPut j e) (trace st) \/ exists fr fd, e = entry_of V fr fd).
    { intros H'. destruct (process_face_cases V i fd0 st) as [[_ E]|(_ & _ & Et)].
      - rewrite E in H'. left; exact H'.
      - rewrite Et in H'. apply in_app_or in H' as [H'|H']; [left; exact H'|].
        destruct H' as [H'|[H'|[]]]; [discriminate|].
        injection H' as _ <-. right. eauto. }
    destruct (process_face V i fd0 st) as [st' [exc|]]; cbn [fst] in *.
    + auto.
    + destruct (IH _ _ _ _ H) as [H'|H']; [auto|right; exact H'].
Qed.

(** C4 (amended).  An observation returned by [predict_from_audio] or
    [predict_from_file] has a confidence in [0,1] when the posterior
    entries are probabilities.  An entry the frame loop stores carries as
    confidence the integer 0 when the classification raised, and otherwise
    the classifier's single-precision score for the dominant emotion,
    rounded to two decimals by numpy in single precision, on the
    classifier's own scale. *)
Theorem confidence_ranges L self V :
  posterior_ok self ->
  (forall audio sr,
     exists c, confidence (predict_from_audio L self audio sr) = Some c /\
               in_unit c = true) /\
  (forall file,
     exists c, confidence (predict_from_file L self file) = Some c /\
               in_unit c = true) /\
  (forall reg f i e, In (EvPut i e) (trace (process_frame V reg f)) ->
     exists fr fd,
       e = entry_of V fr fd /\
       (e_confidence e = PyInt 0 \/
        exists d c, classify V fr (box_of fd) = Ok (d, c) /\
                    e_emotion e = d /\
                    e_confidence e = NpF32 (NpFloat32.np_round c 2))).
Proof.
  intros Hpost. split; [|split].
  - intros audio sr. apply predict_from_audio_unit. exact Hpost.
  - intros file. unfold predict_from_file.
    destruct (decode_file L file) as [[a sr]|e].
    + apply predict_from_audio_unit. exact Hpost.
    + exists zero. split; reflexivity.
  - intros reg f i e H.
    destruct (extract_faces V f) as [faces|msg] eqn:E.
    + destruct (process_frame_Ok _ reg _ _ E) as (_ & _ & Ht). rewrite Ht in H.
      apply in_app_or in H as [H|H];
        [|destruct (process_faces V 0 faces (cleared f)).2;
          [destruct H as [H|[]]; discriminate|destruct H]].
      apply process_faces_puts in H as [H|(fr & fd & ->)].
      * cbn in H. destruct H as [H|[H|[]]]; discriminate.
      * exists fr, fd. split; [reflexivity|]. unfold entry_of.
        destruct (classify V fr (box_of fd)) as [[d c]|m]; cbn.
        -- right. exists d, c. auto.
        -- left. reflexivity.
    + rewrite (process_frame_Raise _ _ _ _ E) in H.
      cbn in H. destruct H as [H|[H|[]]]; discriminate.
Qed.

Lemma confidence_ranges_witness :
  let self := Samples.detector "happy" [dec 7 1; dec 3 1] in
  posterior_ok self /\
  exists c, confidence (predict_from_audio Samples.libs self
                          (np_array Samples.audio) 22050) = Some c /\
            in_unit c = true.
Proof.
  intros self.
  assert (H : posterior_ok self).
  { intros fs probs [= <-]. repeat constructor. }
  split; [exact H|].
  destruct (confidence_ranges Samples.libs self
              (Samples.vision (Ok []) (dec 973 1)) H) as (A & _ & _).
  apply A.
Defined.

(** C4 as stated fails.  A face whose classifier reports the score
    [np.float32(97.3)] for its dominant emotion is stored with that
    confidence, 97.30000305175781, which is not in [0,1]. *)
Lemma confidence_ranges_counterexample :
  current_emotions
    (process_frame (Samples.vision (Ok [Samples.face_b]) (dec 973 1)) ∅
       Samples.picture0) !! 0
  = Some {| e_emotion := "happy";
            e_confidence := NpF32 (NpFloat32.of_double (dec 973 1));
            e_coords := [300; 40; 380; 130]%Z |} /\
  in_unit (NpFloat32.to_double (NpFloat32.of_double (dec 973 1))) = false.
Proof.
  split; [|reflexivity].
  vm_compute. reflexivity.
Qed.

(** ** The audio routes *)

Lemma get_detector_unavailable c :
  raises c = true -> get_detector c None = (None, None).
Proof. destruct c; [discriminate|reflexivity]. Qed.


(** [predict_from_audio] always returns a label. *)
Lemma predict_from_audio_unit_shape L self audio sr :
  exists x, emotion (predict_from_audio L self audio sr) = Some x.
Proof.
  unfold predict_from_audio.
  destruct (predict_from_audio_try L self audio sr) as [b|e] eqn:E.
  - destruct (predict_from_audio_try_Ok _ _ _ _ _ E)
      as (? & ? & ? & ? & ? & _ & _ & _ & _ & _ & _ & ->).
    eexists. reflexivity.
  - eexists. reflexivity.
Qed.


(** C5 (amended).  While the detector cannot be built, no audio route
    runs a prediction, none answers 200, and the detector stays absent; a
    request that gets past the steps its route runs before it asks for
    the detector is answered with status 500 and the body that holds only
    the error "Audio detector not initialized". *)
Theorem unavailable_detector E L r :
  raises (construct E) = true ->
  let o := serve E L None r in
  Forall (fun e => did_predict e = false) (effects o) /\
  (response o).2 <> 200%Z /\
  detector_after o = None /\
  (reaches_detector E r = true ->
   response o = (error_only not_initialized, 500%Z)).
Proof.
  intros Hc. cbv zeta.
  destruct r as [[j|e] | [up|] | [data|e]]; cbn [serve].
  - unfold record_audio, reaches_detector.
    destruct (sd_rec E _ _) as [a|e]; cbn [raises negb].
    + rewrite (get_detector_unavailable _ Hc). cbn.
      repeat split; try discriminate; repeat constructor.
    + cbn. repeat split; try discriminate; repeat constructor.
  - cbn. repeat split; try discriminate; constructor.
  - unfold predict_audio_file, reaches_detector.
    destruct (String.eqb (filename up) ""); cbn [negb andb].
    + cbn. repeat split; try discriminate; constructor.
    + destruct (save_upload E (content up)) as [u|e]; cbn [raises negb andb].
      * destruct (list_debug_dir E) as [n|e]; cbn [raises negb].
        -- rewrite (get_detector_unavailable _ Hc). cbn.
           repeat split; try discriminate; repeat constructor.
        -- cbn. repeat split; try discriminate; repeat constructor.
      * cbn. repeat split; try discriminate; repeat constructor.
  - cbn. repeat split; try discriminate; constructor.
  - unfold predict_audio_numpy, reaches_detector.
    destruct (length (default [] (nj_audio data)) =? 0); cbn [negb].
    + cbn. repeat split; try discriminate; constructor.
    + rewrite (get_detector_unavailable _ Hc). cbn.
      repeat split; try discriminate; repeat constructor.
  - cbn. repeat split; try discriminate; constructor.
Qed.

Lemma unavailable_detector_witness :
  let E := Samples.env Samples.missing in
  let r := ReqNumpy (Ok {| nj_audio := Some Samples.audio; nj_sample_rate := None |}) in
  let o := serve E Samples.libs None r in
  Forall (fun e => did_predict e = false) (effects o) /\
  (response o).2 <> 200%Z /\
  detector_after o = None /\
  (reaches_detector E r = true ->
   response o = (error_only not_initialized, 500%Z)).
Proof.
  intros E r.
  apply (unavailable_detector E Samples.libs r). reflexivity.
Defined.

(** C5 as stated fails.  With the detector unavailable, record mode
    captures seven seconds of audio before it answers, file mode without a
    file answers 400 "No file provided", and raw-array mode with an empty
    array answers 400 "No audio data provided". *)
Lemma unavailable_detector_counterexample :
  let E := Samples.env Samples.missing in
  effects (serve E Samples.libs None
             (ReqRecord (Ok {| rj_duration := None; rj_sample_rate := None |})))
    = [EffRecord 154350 22050; EffGetDetector] /\
  response (serve E Samples.libs None (ReqFile None))
    = (error_only "No file provided", 400%Z) /\
  response (serve E Samples.libs None
              (ReqNumpy (Ok {| nj_audio := Some []; nj_sample_rate := None |})))
    = (error_only "No audio data provided", 400%Z).
Proof. repeat split; reflexivity. Qed.




(** C9 (amended).  [predict_from_file] is [predict_from_audio] on the
    array and rate the file decodes to.  When that array is the array a
    raw-array request carries, with the same values and the same
    double-precision element type, and it is not empty, then for an
    upload that is saved the file route answers exactly as the raw-array
    route does on that array and rate, with the detector available. *)
Theorem decode_path_equivalence E L d up arr sr :
  decode_file L (content up) = Ok (arr, sr) ->
  predict_from_file L d (content up) = predict_from_audio L d arr sr /\
  (forall l,
     arr = np_array l -> l <> [] ->
     filename up <> ""%string ->
     raises (save_upload E (content up)) = false ->
     raises (list_debug_dir E) = false ->
     response (predict_audio_file E L (Some d) (Some up))
     = response (predict_audio_numpy E L (Some d)
                   (Ok {| nj_audio := Some l; nj_sample_rate := Some sr |}))).
Proof.
  intros Hd.
  assert (Hf : predict_from_file L d (content up) = predict_from_audio L d arr sr).
  { unfold predict_from_file. rewrite Hd. reflexivity. }
  split; [exact Hf|].
  intros l -> Hl Hn Hs Hls.
  unfold predict_audio_file, predict_audio_numpy.
  apply String.eqb_neq in Hn. rewrite Hn.
  destruct (save_upload E (content up)); [|discriminate].
  destruct (list_debug_dir E); [|discriminate].
  cbn [default nj_audio nj_sample_rate get_detector].
  destruct l as [|s0 l]; [contradiction|].
  cbn [length Nat.eqb response]. rewrite Hf. reflexivity.
Qed.

Lemma decode_path_equivalence_witness :
  let E := Samples.env Samples.missing in
  let d := Samples.detector "happy" [dec 7 1; dec 3 1] in
  let up := {| filename := "a.wav"; content := "pcm" |} in
  decode_file Samples.libs (content up) = Ok (np_array Samples.audio, 22050%Z) /\
  response (predict_audio_file E Samples.libs (Some d) (Some up))
  = response (predict_audio_numpy E Samples.libs (Some d)
                (Ok {| nj_audio := Some Samples.audio;
                       nj_sample_rate := Some 22050%Z |})).
Proof.
  intros E d up.
  assert (Hd : decode_file Samples.libs (content up)
               = Ok (np_array Samples.audio, 22050%Z)) by reflexivity.
  split; [exact Hd|].
  destruct (decode_path_equivalence E Samples.libs d up
              (np_array Samples.audio) 22050%Z Hd) as [_ H].
  apply (H Samples.audio); [reflexivity | discriminate | discriminate
                            | reflexivity | reflexivity].
Defined.

(** C9 as stated fails.  An upload that librosa decodes to no samples
    at rate 22050 is answered by the file route with status 200 and the
    degraded body of [predict_from_audio], while the raw-array route
    answers the array without samples and the same rate with status 400
    "No audio data provided".  The same happens for an upload that only
    scipy decodes, to the very double-precision array without samples
    that the raw-array request carries. *)
Lemma decode_path_equivalence_counterexample :
  let E := Samples.env Samples.missing in
  let d := Samples.detector "happy" [dec 7 1; dec 3 1] in
  let up := {| filename := "a.wav"; content := "empty" |} in
  let up' := {| filename := "b.wav"; content := "silence" |} in
  let msg := "zero-size array to reduction operation minimum which has no identity"%string in
  (decode_file Samples.libs (content up) = Ok (float32_array [], 22050%Z) /\
   response (predict_audio_file E Samples.libs (Some d) (Some up))
   = (degraded msg, 200%Z)) /\
  (decode_file Samples.libs (content up') = Ok (np_array [], 22050%Z) /\
   response (predict_audio_file E Samples.libs (Some d) (Some up'))
   = (degraded msg, 200%Z)) /\
  response (predict_audio_numpy E Samples.libs (Some d)
              (Ok {| nj_audio := Some []; nj_sample_rate := Some 22050%Z |}))
  = (error_only "No audio data provided", 400%Z).
Proof. cbv zeta. repeat split; reflexivity. Qed.

(* ===================================================================== *)
(** * Further properties of the audio code *)
(* ===================================================================== *)

Section FloatFloor.
Local Open Scope Z_scope.

Lemma round_half_even_lower n d k :
  0 < d -> (2 * k - 1) * d < 2 * n -> k <= round_half_even n d.
Proof.
  intros Hd Hn. unfold round_half_even.
  pose proof (Z.div_mod n d ltac:(lia)) as Hdm.
  pose proof (Z.mod_pos_bound n d Hd) as Hr.
  destruct (Z_lt_le_dec (n / d) k) as [Hq|Hq].
  - assert (Hq1 : k - 1 <= n / d) by nia.
    assert (Hgt : d < 2 * (n mod d)) by nia.
    apply Z.compare_gt_iff in Hgt. rewrite Hgt. lia.
  - destruct (2 * (n mod d) ?= d); [destruct (Z.even (n / d))| |]; lia.
Qed.

(** The doubles nearest to [d]/10000, for [d] from 1500 to 10000, are
    not below the double 0.15. *)
Lemma quotient_10000_floor_table :
  check_range (fun d => negb (ltb (quotient_10000 d) (dec 15 2)))
    (Z.to_nat 8501) 1500 = true.
Proof. vm_compute. reflexivity. Qed.

Lemma quotient_10000_floor (d : positive) :
  1500 <= Zpos d <= 10000 -> ltb (quotient_10000 d) (dec 15 2) = false.
Proof.
  intros Hd.
  pose proof (check_range_spec (fun d => negb (ltb (quotient_10000 d) (dec 15 2)))
                (Z.to_nat 8501) 1500 quotient_10000_floor_table d) as H.
  rewrite Z2Nat.id in H by discriminate.
  apply negb_true_iff, H.
  destruct Hd as [H1 H2]. split; [exact H1|].
  apply (Z.le_lt_trans _ _ _ H2). reflexivity.
Qed.

(** A canonical double of the unit interval that is not below 0.15. *)
Lemma above_floor_finite s m e :
  valid (S754_finite s m e) = true ->
  in_unit (S754_finite s m e) = true ->
  ltb (S754_finite s m e) (dec 15 2) = false ->
  -55 <= e <= -52 /\ 2 ^ 52 <= Zpos m /\
  (e = -55 -> 5404319552844595 <= Zpos m).
Proof.
  intros Hv Hu Hl.
  destruct (in_unit_finite _ _ _ Hv Hu) as (-> & He & Hm).
  assert (He52 : e <= -52).
  { unfold in_unit in Hu. apply andb_true_iff in Hu as [_ H1].
    rewrite one_repr in H1. unfold leb, SFleb, SFcompare in H1.
    destruct (Z.compare_spec e (-52)); [lia|lia|discriminate H1]. }
  rewrite lit_0_15_repr in Hl. unfold ltb, SFltb, SFcompare in Hl.
  assert (He55 : -55 <= e /\ (e = -55 -> 5404319552844595 <= Zpos m)).
  { destruct (Z.compare_spec e (-55)) as [E|E|E].
    - split; [lia|]. intros _.
      rewrite Pos.compare_cont_spec in Hl. cbn [Pos.switch_Eq] in Hl.
      destruct (Pos.compare_spec m 5404319552844595) as [C|C|C].
      + subst m. reflexivity.
      + discriminate Hl.
      + apply Z.lt_le_incl. exact C.
    - discriminate Hl.
    - split; [lia|]. intros ->. exfalso. revert E. apply Z.lt_irrefl. }
  destruct He55 as [He55 Hm0]. split; [split; assumption|]. split; [|exact Hm0].
  unfold valid, valid_binary, bounded, canonical_mantissa, fexp, emin, prec, emax in Hv.
  apply andb_true_iff in Hv as [Hc _]. apply Z.eqb_eq in Hc.
  pose proof (digits2_pos_bounds m) as [Hlow _].
  assert (Hd : Z.pos (digits2_pos m) = 53) by lia.
  rewrite Hd in Hlow. exact Hlow.
Qed.

(** Rounding to four decimals keeps a probability that is not below
    0.15 between 0.15 and 1. *)
Lemma py_round_4_floor (x : float) :
  valid x = true -> in_unit x = true -> ltb x (dec 15 2) = false ->
  ltb (py_round x 4) (dec 15 2) = false.
Proof.
  intros Hv Hu Hl. destruct x as [s | s | | s m e]; try exact Hl.
  destruct (in_unit_finite _ _ _ Hv Hu) as (-> & He & Hm).
  destruct (above_floor_finite _ _ _ Hv Hu Hl) as ((He1 & He2) & Hm52 & Hm0).
  unfold py_round.
  replace (0 <=? e) with false by (symmetry; apply Z.leb_gt; exact He).
  change (10 ^ 4) with 10000.
  assert (HD : 0 < 2 ^ (- e)) by (apply Z.pow_pos_nonneg; lia).
  pose proof (round_half_even_bounds (Zpos m * 10000) (2 ^ (- e)) 10000 HD
                ltac:(lia) ltac:(lia)) as Hb.
  assert (Hlow : 1500 <= round_half_even (Zpos m * 10000) (2 ^ (- e))).
  { apply round_half_even_lower; [exact HD|].
    change (2 ^ 52) with 4503599627370496 in Hm52.
    assert (Hcase : e = -55 \/ e = -54 \/ e = -53 \/ e = -52) by lia.
    destruct Hcase as [-> | [-> | [-> | ->]]].
    - specialize (Hm0 eq_refl). change (2 ^ (- -55)) with 36028797018963968. lia.
    - change (2 ^ (- -54)) with 18014398509481984. lia.
    - change (2 ^ (- -53)) with 9007199254740992. lia.
    - change (2 ^ (- -52)) with 4503599627370496. lia. }
  destruct (round_half_even (Zpos m * 10000) (2 ^ (- e))) as [|dp|dp]; [lia| |lia].
  apply quotient_10000_floor. lia.
Qed.

Lemma np_maximum_nan_l b : np_maximum S754_nan b = S754_nan.
Proof. unfold np_maximum. destruct (leb b S754_nan); reflexivity. Qed.

Lemma np_maximum_nan_r a : np_maximum a S754_nan = S754_nan.
Proof. destruct a; reflexivity. Qed.

Lemma fold_np_maximum_nan xs : fold_left np_maximum xs S754_nan = S754_nan.
Proof.
  induction xs as [|y ys IH]; [reflexivity|].
  cbn [fold_left]. rewrite np_maximum_nan_l. exact IH.
Qed.

(** [np.max] propagates NaN. *)
Lemma np_max_nan (l : list float) : In S754_nan l -> np_max l = Some S754_nan.
Proof.
  destruct l as [|x xs]; [intros []|]. cbn [np_max]. intros H. f_equal.
  revert x H. induction xs as [|y ys IH]; intros x H; cbn [fold_left].
  - destruct H as [-> | []]. reflexivity.
  - destruct H as [-> | [-> | H]].
    + rewrite np_maximum_nan_l. apply fold_np_maximum_nan.
    + rewrite np_maximum_nan_r. apply fold_np_maximum_nan.
    + apply IH. right. exact H.
Qed.
End FloatFloor.

(** X1.  When librosa's MFCC routine returns as many rows as it is asked
    for and its chroma routine returns 12 rows, a feature vector that
    [extract_features_from_audio] returns has length 26 and consists of
    the 13 MFCC row means, then the 12 chroma row means, then the mean
    zero-crossing rate, all computed on the trimmed and normalized
    buffer. *)
Theorem extract_features_layout L y sr v :
  (forall y sr n m, feature_mfcc L y sr n = Ok m -> length m = n) ->
  (forall y sr m, feature_chroma_stft L y sr = Ok m -> length m = 12) ->
  extract_features_from_audio L y sr = Ok v ->
  length v = 26 /\
  exists y1 y2 mfcc chroma zc,
    effects_trim L y 25 = Ok y1 /\
    util_normalize L y1 = Ok y2 /\
    feature_mfcc L y2 sr 13 = Ok mfcc /\
    feature_chroma_stft L y2 sr = Ok chroma /\
    feature_zero_crossing_rate L y2 = Ok zc /\
    v = map (np_mean L) mfcc ++ map (np_mean L) chroma ++ [np_mean L (concat zc)].
Proof.
  intros Hm Hc H. unfold extract_features_from_audio in H.
  bind_inv H. bind_inv H. bind_inv H. bind_inv H. bind_inv H.
  injection H as <-. split.
  - rewrite !length_app, !length_map, (Hm _ _ _ _ E1), (Hc _ _ _ E2). reflexivity.
  - exists v0, v1, v2, v3, v4. auto 10.
Qed.

Lemma extract_features_layout_witness :
  exists v, extract_features_from_audio Samples.libs (np_array Samples.audio) 22050
            = Ok v /\
            length v = 26.
Proof.
  destruct (extract_features_from_audio Samples.libs (np_array Samples.audio) 22050)
    as [v|e] eqn:E; [|discriminate E].
  exists v. split; [reflexivity|].
  apply (extract_features_layout Samples.libs (np_array Samples.audio) 22050 v).
  - intros y sr n m [= <-]. apply repeat_length.
  - intros y sr m [= <-]. reflexivity.
  - exact E.
Defined.

(** X2.  The features computed for a file of the data set are the
    features the real-time path computes on the samples and rate the
    file loads to: both paths feed the model the same vector. *)
Theorem extract_features_parity L file sr y sr' :
  librosa_load L file sr = Ok (y, sr') ->
  extract_features L file sr = extract_features_from_audio L y sr'.
Proof.
  intros H. unfold extract_features, extract_features_from_audio.
  rewrite H. reflexivity.
Qed.

Lemma extract_features_parity_witness :
  extract_features Samples.libs "wav" 22050
  = extract_features_from_audio Samples.libs (float32_array Samples.audio) 22050.
Proof.
  apply (extract_features_parity Samples.libs "wav" 22050
           (float32_array Samples.audio) 22050).
  reflexivity.
Defined.

(** X3.  The gate does not catch NaN: when the features of the buffer
    are extracted and scaled and the posterior the model returns on them
    contains a NaN, the call completes and returns the model's label,
    stripped, with the confidence NaN. *)
Theorem nan_posterior_passes_gate L self audio sr features fs prediction probs :
  a_data audio <> [] ->
  extract_features_from_audio L audio sr = Ok features ->
  scaler_transform self features = Ok fs ->
  model_predict self fs = Ok prediction ->
  model_predict_proba self fs = Ok probs ->
  In S754_nan probs ->
  predict_from_audio L self audio sr
  = {| emotion := Some (strip prediction);
       confidence := Some S754_nan;
       probabilities := Some (prob_dict (classes_ self) probs);
       error := None |}.
Proof.
  intros Ha Hx Hs Hp Hpr Hnan.
  unfold predict_from_audio, predict_from_audio_try, log_audio_statistics.
  destruct (a_data audio) as [|a0 rest]; [contradiction|].
  cbn [mbind result_bind]. rewrite Hx. cbn [mbind result_bind].
  rewrite Hs. cbn [mbind result_bind]. rewrite Hp. cbn [mbind result_bind].
  rewrite Hpr. cbn [mbind result_bind]. rewrite (np_max_nan _ Hnan).
  reflexivity.
Qed.

Lemma nan_posterior_passes_gate_witness :
  confidence (predict_from_audio Samples.libs
                (Samples.detector "sad" [dec 5 1; S754_nan])
                (np_array Samples.audio) 22050)
  = Some S754_nan.
Proof.
  destruct (extract_features_from_audio Samples.libs (np_array Samples.audio) 22050)
    as [features|e] eqn:E; [|discriminate E].
  rewrite (nan_posterior_passes_gate Samples.libs
             (Samples.detector "sad" [dec 5 1; S754_nan])
             (np_array Samples.audio) 22050 features features "sad"
             [dec 5 1; S754_nan]).
  - reflexivity.
  - discriminate.
  - exact E.
  - reflexivity.
  - reflexivity.
  - reflexivity.
  - right. left. reflexivity.
Defined.

(** X4.  When the posterior entries are probabilities, the confidence a
    completed call returns is a double between 0.15 and 1: the floor of
    the gate survives the rounding to four decimals. *)
Theorem confidence_floor L self audio sr b :
  posterior_ok self ->
  predict_from_audio_try L self audio sr = Ok b ->
  exists c, confidence b = Some c /\
            ltb c (dec 15 2) = false /\ in_unit c = true.
Proof.
  intros Hpost H.
  destruct (predict_from_audio_try_Ok _ _ _ _ _ H)
    as (features & fs & prediction & probs & pmax & _ & _ & _ & _ & Hpr & Hmax & ->).
  cbn [confidence]. eexists. split; [reflexivity|].
  unfold gate. destruct (ltb pmax (dec 15 2)) eqn:Hlt; cbn [snd].
  - split; reflexivity.
  - apply np_max_In, list_elem_of_In in Hmax.
    pose proof (Hpost _ _ Hpr) as Hall. rewrite Forall_forall in Hall.
    destruct (Hall _ Hmax) as [Hv Hu]. split.
    + apply py_round_4_floor; assumption.
    + apply py_round_4_unit; assumption.
Qed.

Lemma confidence_floor_witness :
  let self := Samples.detector "happy" [dec 7 1; dec 3 1] in
  exists c, confidence (predict_from_audio Samples.libs self
                          (np_array Samples.audio) 22050) = Some c /\
            ltb c (dec 15 2) = false /\ in_unit c = true.
Proof.
  intros self.
  apply (confidence_floor Samples.libs self (np_array Samples.audio) 22050).
  - intros fs probs [= <-]. repeat constructor.
  - vm_compute. reflexivity.
Defined.

(** ** The distribution and the labels *)

Lemma prob_fold_sound classes : forall probs (d : gmap string float) k p,
  fold_left (fun d lp => <[strip lp.1 := lp.2]> d) (zip classes probs) d !! k = Some p ->
  d !! k = Some p \/
  exists i label, classes !! i = Some label /\ strip label = k /\ probs !! i = Some p.
Proof.
  induction classes as [|c classes IH]; intros probs d k p H.
  - left. exact H.
  - destruct probs as [|q probs]; [left; exact H|].
    cbn [zip_with fold_left fst snd] in H.
    destruct (IH _ _ _ _ H) as [Hd|(i & label & Hc & Hs & Hp)].
    + destruct (decide (strip c = k)) as [Ek|Ek].
      * subst k. rewrite lookup_insert_eq in Hd. injection Hd as ->.
        right. exists 0, c. auto.
      * rewrite lookup_insert_ne in Hd by exact Ek. left. exact Hd.
    + right. exists (S i), label. auto.
Qed.

Lemma prob_fold_fresh classes : forall probs (d : gmap string float) k,
  k ∉ strip <$> classes ->
  fold_left (fun d lp => <[strip lp.1 := lp.2]> d) (zip classes probs) d !! k = d !! k.
Proof.
  induction classes as [|c classes IH]; intros probs d k Hk; [reflexivity|].
  destruct probs as [|q probs]; [reflexivity|].
  cbn [zip_with fold_left fst snd]. rewrite fmap_cons in Hk.
  apply not_elem_of_cons in Hk as [Hne Hk].
  rewrite (IH _ _ _ Hk). apply lookup_insert_ne. congruence.
Qed.

(** X5.  Every entry of the returned distribution is the posterior of a
    class, filed under the class label without surrounding whitespace;
    and when the stripped labels are pairwise distinct, every class that
    has a posterior is present with exactly that posterior: the values
    are not re-normalized. *)
Theorem prob_dict_lookup classes probs :
  (forall k p, prob_dict classes probs !! k = Some p ->
     exists i label, classes !! i = Some label /\ strip label = k /\
                     probs !! i = Some p) /\
  (NoDup (strip <$> classes) ->
     forall i label p, classes !! i = Some label -> probs !! i = Some p ->
       prob_dict classes probs !! strip label = Some p).
Proof.
  unfold prob_dict. split.
  - intros k p H. destruct (prob_fold_sound _ _ _ _ _ H) as [Hd|Hd]; [|exact Hd].
    rewrite lookup_empty in Hd. discriminate.
  - generalize (∅ : gmap string float) as d. revert probs.
    induction classes as [|c classes IH]; intros probs d Hnd i label p Hc Hp;
      [discriminate|].
    destruct probs as [|q probs]; [discriminate|].
    rewrite fmap_cons in Hnd. apply NoDup_cons in Hnd as [Hfresh Hnd].
    cbn [zip_with fold_left fst snd]. destruct i as [|i].
    + injection Hc as ->. injection Hp as ->.
      rewrite (prob_fold_fresh _ _ _ _ Hfresh). apply lookup_insert_eq.
    + apply (IH probs _ Hnd i); assumption.
Qed.

Lemma prob_dict_lookup_witness :
  prob_dict [" happy"; "sad" ++ Samples.nbsp]%string [dec 7 1; dec 3 1] !! "sad"%string
  = Some (dec 3 1).
Proof.
  destruct (prob_dict_lookup [" happy"; "sad" ++ Samples.nbsp]%string
              [dec 7 1; dec 3 1]) as [_ H].
  assert (Hnd : NoDup (strip <$> [" happy"; "sad" ++ Samples.nbsp]%string)).
  { apply NoDup_cons. split; [|apply NoDup_singleton].
    intros Hin. apply list_elem_of_singleton in Hin.
    vm_compute in Hin. discriminate Hin. }
  apply (H Hnd 1 ("sad" ++ Samples.nbsp)%string); reflexivity.
Defined.

(** ** The detector and the decoders *)

(** X7.  [get_detector] keeps a detector once it has one, and it does
    not remember a failure: after a call that failed, the next call
    builds the detector again and succeeds when the artifacts can be
    loaded by then. *)
Theorem get_detector_retry c1 c2 g :
  let first := get_detector c1 g in
  let second := get_detector c2 first.1 in
  first.1 = first.2 /\
  (is_Some first.2 -> second = first) /\
  (first.2 = None -> g = None /\ raises c1 = true /\
                     forall d, c2 = Ok d -> second = (Some d, Some d)).
Proof.
  cbv zeta. destruct g as [d|]; cbn.
  - split; [reflexivity|]. split; [reflexivity|discriminate].
  - destruct c1 as [d1|e1]; cbn.
    + split; [reflexivity|]. split; [reflexivity|discriminate].
    + split; [reflexivity|]. split; [intros [x Hx]; discriminate|].
      intros _. split; [reflexivity|]. split; [reflexivity|].
      intros d ->. reflexivity.
Qed.

Lemma get_detector_retry_witness :
  let d := Samples.detector "happy" [dec 7 1; dec 3 1] in
  get_detector (Ok d) (get_detector Samples.missing None).1 = (Some d, Some d).
Proof.
  intros d.
  destruct (get_detector_retry Samples.missing (Ok d) None) as (_ & _ & H).
  destruct (H eq_refl) as (_ & _ & H'). apply H'. reflexivity.
Defined.

(** X8.  What [decode_file] returns: the first decoder's result when it
    succeeds; otherwise the second decoder's samples, divided by 32768
    in double precision, at rate 22050; and when it raises, the exception
    is the first decoder's, whatever the second one raised. *)
Theorem decode_file_fallback L file :
  (forall r, librosa_load L file 22050 = Ok r -> decode_file L file = Ok r) /\
  (forall a sr, decode_file L file = Ok (a, sr) ->
     raises (librosa_load L file 22050) = true ->
     sr = 22050%Z /\
     exists rate data,
       wavfile_read L file = Ok (rate, data) /\
       let scaled := np_array (map (fun s => div (of_Z s) (of_Z 32768)) data) in
       (rate = 22050%Z -> a = scaled) /\
       (rate <> 22050%Z -> librosa_resample L scaled rate 22050 = Ok a)) /\
  (forall e, decode_file L file = Raise e -> librosa_load L file 22050 = Raise e).
Proof.
  unfold decode_file. split; [|split].
  - intros r ->. reflexivity.
  - intros a sr H Hr.
    destruct (librosa_load L file 22050) as [r|e]; [discriminate|].
    destruct (wavfile_read L file) as [[rate data]|e2]; [|discriminate].
    cbn [mbind result_bind] in H.
    destruct (Z.eqb_spec rate 22050) as [->|Hne].
    + injection H as <- <-. split; [reflexivity|].
      exists 22050%Z, data. split; [reflexivity|]. cbv zeta.
      split; [reflexivity|]. intros Hc. contradiction.
    + destruct (librosa_resample L _ rate 22050) as [a'|e3] eqn:Er; [|discriminate].
      injection H as <- <-. split; [reflexivity|].
      exists rate, data. split; [reflexivity|]. cbv zeta.
      split; [intros Hc; contradiction|]. intros _. exact Er.
  - intros e H.
    destruct (librosa_load L file 22050) as [r|e1]; [discriminate|].
    destruct (wavfile_read L file ≫= _); [discriminate|].
    exact H.
Qed.

Lemma decode_file_fallback_witness :
  decode_file Samples.libs "wav" = Ok (float32_array Samples.audio, 22050%Z) /\
  librosa_load Samples.libs "mp3" 22050 = Raise "NoBackendError".
Proof.
  destruct (decode_file_fallback Samples.libs "wav") as (A & _ & _).
  destruct (decode_file_fallback Samples.libs "mp3") as (_ & _ & C).
  split; [apply A; reflexivity | apply C; reflexivity].
Defined.

(* ===================================================================== *)
(** * Further properties of the frame loop *)
(* ===================================================================== *)

Lemma replay_app a : forall b reg, replay (a ++ b) reg = replay b (replay a reg).
Proof.
  induction a as [|ev a IH]; intros b reg; [reflexivity|].
  destruct ev; cbn [app replay]; apply IH.
Qed.

Lemma process_faces_lookup_ge V faces : forall i st j,
  i + length faces <= j ->
  current_emotions (process_faces V i faces st).1 !! j = current_emotions st !! j.
Proof.
  induction faces as [|fd rest IH]; intros i st j Hj; [reflexivity|].
  cbn [process_faces length] in *.
  assert (Hstep : current_emotions (process_face V i fd st).1 !! j
                  = current_emotions st !! j).
  { destruct (process_face_cases V i fd st) as [[_ E]|(_ & Ec & _)].
    - rewrite E. reflexivity.
    - rewrite Ec. apply lookup_insert_ne. lia. }
  destruct (process_face V i fd st) as [st' [e|]]; cbn [fst] in *; [exact Hstep|].
  rewrite IH by lia. exact Hstep.
Qed.

(** A region the loop does not reach gets no entry. *)
Lemma process_faces_unreached V faces k i st e :
  (process_faces V i (take k faces) st).2 = Some e ->
  current_emotions (process_faces V i faces st).1 !! (i + k)
  = current_emotions st !! (i + k).
Proof.
  intros Hr. rewrite <- (take_drop k faces) at 1. rewrite process_faces_app.
  pose proof (process_faces_lookup_ge V (take k faces) i st (i + k)) as Hge.
  destruct (process_faces V i (take k faces) st) as [st' [e'|]]; [|discriminate].
  cbn [fst] in *. apply Hge. rewrite length_take. lia.
Qed.

(** X9.  The registry a frame leaves when the localizer returned.
    Every entry in it is the entry of the detected region at its index,
    and that region has a non-empty crop: no entry for an empty crop,
    none beyond the detections, none left over from earlier frames.
    When the loop runs to its end, no drawing call having raised, the
    registry holds exactly the entries of the regions with a non-empty
    crop. *)
Theorem registry_after_frame V reg f faces i :
  extract_faces V f = Ok faces ->
  (forall e, current_emotions (process_frame V reg f) !! i = Some e ->
     exists fd, faces !! i = Some fd /\ box_size f fd <> 0%Z /\
                e = entry_of V (frame_before V f faces i) fd) /\
  (reaches V f faces (length faces) ->
   current_emotions (process_frame V reg f) !! i
   = match faces !! i with
     | Some fd =>
         if (box_size f fd =? 0)%Z then None
         else Some (entry_of V (frame_before V f faces i) fd)
     | None => None
     end).
Proof.
  intros E. destruct (process_frame_Ok _ reg _ _ E) as (-> & _ & _).
  assert (Hcases :
    match faces !! i with
    | Some fd =>
        if (box_size f fd =? 0)%Z
        then current_emotions (process_faces V 0 faces (cleared f)).1 !! i = None
        else (process_faces V 0 (take i faces) (cleared f)).2 = None ->
             current_emotions (process_faces V 0 faces (cleared f)).1 !! i
             = Some (entry_of V (frame_before V f faces i) fd)
    | None => current_emotions (process_faces V 0 faces (cleared f)).1 !! i = None
    end).
  { destruct (faces !! i) as [fd|] eqn:Hi.
    - destruct (Z.eqb_spec (box_size f fd) 0) as [Hz|Hz].
      + destruct (process_faces_skip V faces i 0 (cleared f) fd Hi Hz)
          as (_ & _ & _ & Hl).
        exact Hl.
      + intros Hr. apply (process_faces_entry V faces i 0 (cleared f) fd Hi Hz Hr).
    - apply lookup_ge_None in Hi.
      rewrite process_faces_lookup_ge by (cbn; lia). reflexivity. }
  split.
  - intros e He. destruct (faces !! i) as [fd|] eqn:Hi; [|congruence].
    destruct (Z.eqb_spec (box_size f fd) 0) as [Hz|Hz]; [congruence|].
    exists fd. split; [reflexivity|]. split; [exact Hz|].
    destruct (process_faces V 0 (take i faces) (cleared f)).2 as [exc|] eqn:Hr.
    + pose proof (process_faces_unreached V faces i 0 (cleared f) exc Hr) as Hu.
      cbn [Nat.add] in Hu. rewrite Hu in He.
      cbn in He. rewrite lookup_empty in He. discriminate.
    + rewrite (Hcases eq_refl) in He. congruence.
  - intros Hd. destruct (faces !! i) as [fd|] eqn:Hi; [|exact Hcases].
    destruct (Z.eqb_spec (box_size f fd) 0) as [Hz|Hz]; [exact Hcases|].
    apply Hcases. apply (reaches_le V f faces i (length faces) Hd).
    apply Nat.lt_le_incl. apply (lookup_lt_Some _ _ _ Hi).
Qed.

Lemma registry_after_frame_witness :
  let V := Samples.vision (Ok [Samples.face_a; Samples.face_flat; Samples.face_b])
             (dec 973 1) in
  let old : gmap nat Entry := {[ 5 := unknown_entry Samples.face_b ]} in
  current_emotions (process_frame V old Samples.picture0) !! 5 = None /\
  current_emotions (process_frame V old Samples.picture0) !! 1 = None /\
  is_Some (current_emotions (process_frame V old Samples.picture0) !! 2).
Proof.
  intros V old.
  assert (Hd : reaches V Samples.picture0
                 [Samples.face_a; Samples.face_flat; Samples.face_b] 3)
    by reflexivity.
  destruct (registry_after_frame V old Samples.picture0 _ 5 eq_refl) as [_ H5].
  destruct (registry_after_frame V old Samples.picture0 _ 1 eq_refl) as [_ H1].
  destruct (registry_after_frame V old Samples.picture0 _ 2 eq_refl) as [_ H2].
  rewrite (H5 Hd), (H1 Hd), (H2 Hd). repeat split. eexists. reflexivity.
Defined.

(** X10.  The dictionary an iteration leaves is the one its locked
    sections produce, in order; and from the clear on, what a reader sees
    does not depend on the dictionary the iteration started with: the
    entries of the frame in progress are never mixed with those of the
    previous frame.  Before the clear a reader sees the previous
    dictionary unchanged. *)
Theorem snapshot_isolation V reg reg' f faces k :
  extract_faces V f = Ok faces ->
  let tr := trace (process_frame V reg f) in
  current_emotions (process_frame V reg f) = replay tr reg /\
  (2 <= k -> get_emotions (replay (take k tr) reg)
             = get_emotions (replay (take k tr) reg')) /\
  (k < 2 -> get_emotions (replay (take k tr) reg) = reg).
Proof.
  intros E. cbv zeta. destruct (process_frame_Ok _ reg _ _ E) as (-> & _ & ->).
  destruct (process_faces_trace V faces 0 (cleared f)) as (ext & -> & _ & ->).
  cbn [cleared trace current_emotions app]. split; [|split].
  - cbn [replay]. rewrite replay_app.
    destruct (process_faces V 0 faces (cleared f)).2; reflexivity.
  - intros Hk. destruct k as [|[|k]]; [lia|lia|]. reflexivity.
  - intros Hk. destruct k as [|[|k]]; [reflexivity|reflexivity|lia].
Qed.

Lemma snapshot_isolation_witness :
  let V := Samples.vision (Ok [Samples.face_a; Samples.face_b]) (dec 973 1) in
  let old : gmap nat Entry := {[ 5 := unknown_entry Samples.face_b ]} in
  let tr := trace (process_frame V old Samples.picture0) in
  get_emotions (replay (take 4 tr) old) = get_emotions (replay (take 4 tr) ∅).
Proof.
  intros V old tr.
  destruct (snapshot_isolation V old ∅ Samples.picture0
              [Samples.face_a; Samples.face_b] 4 eq_refl) as (_ & H & _).
  apply H. lia.
Defined.

(** X11.  The generator stops at the first iteration that finds the
    flag cleared or fails to read a frame: what the environment offers
    afterwards has no effect, and exactly one unit was yielded per
    iteration before it. *)
Theorem get_frame_stops V pre t rest reg :
  Forall (fun x => exists f, x = (true, Some f)) pre ->
  t.1 = false \/ t.2 = None ->
  get_frame V (pre ++ t :: rest) reg = get_frame V pre reg /\
  length (yielded (get_frame V pre reg)) = length pre /\
  length (iterations (get_frame V pre reg)) = length pre.
Proof.
  intros Hpre Ht. revert reg.
  induction Hpre as [|x pre [f ->] _ IH]; intros reg.
  - cbn [app get_frame]. destruct t as [[|] [g|]]; cbn in Ht;
      destruct Ht as [Ht|Ht]; try discriminate; auto.
  - cbn [app get_frame]. destruct (IH (current_emotions (process_frame V reg f)))
      as (-> & Hy & Hi).
    cbn [yielded iterations length]. rewrite Hy, Hi. auto.
Qed.

Lemma get_frame_stops_witness :
  let V := Samples.vision (Ok [Samples.face_b]) (dec 973 1) in
  length (yielded (get_frame V [(true, Some Samples.picture0);
                                (false, Some Samples.picture0);
                                (true, Some Samples.picture0)] ∅)) = 1.
Proof.
  intros V.
  destruct (get_frame_stops V [(true, Some Samples.picture0)]
              (false, Some Samples.picture0) [(true, Some Samples.picture0)] ∅)
    as (E & Hy & _).
  - repeat constructor. eauto.
  - left. reflexivity.
  - cbn [app] in E. rewrite E. exact Hy.
Defined.

Lemma append_inv_head p a b : (p ++ a)%string = (p ++ b)%string -> a = b.
Proof. induction p as [|c p IH]; cbn; [auto|]. intros [= H]. auto. Qed.

Lemma append_inv_tail s a : forall b, (a ++ s)%string = (b ++ s)%string -> a = b.
Proof.
  induction a as [|c a IH]; intros [|c' b] H; simpl in H.
  - reflexivity.
  - apply (f_equal String.length) in H.
    simpl in H. rewrite !append_length in H. simpl in H. lia.
  - apply (f_equal String.length) in H.
    simpl in H. rewrite !append_length in H. simpl in H. lia.
  - injection H as -> H. f_equal. auto.
Qed.

(** X12.  The framing of the stream loses nothing: two units are equal
    only when the encoded frames are, and a unit is 39 bytes longer than
    the encoded frame it carries. *)
Theorem chunk_framing a b :
  (chunk a = chunk b -> a = b) /\
  String.length (chunk a) = 39 + String.length a.
Proof.
  unfold chunk. split.
  - intros H.
    apply append_inv_head in H. apply append_inv_head in H.
    apply append_inv_head in H. apply append_inv_head in H.
    apply append_inv_head in H. apply append_inv_tail in H. exact H.
  - rewrite !append_length. cbn. lia.
Qed.

Lemma chunk_framing_witness : String.length (chunk "jpeg") = 43.
Proof. destruct (chunk_framing "jpeg" "jpeg") as [_ H]. exact H. Defined.

Section CropFacts.
Local Open Scope Z_scope.

Lemma slice_len_bounds start stop len :
  0 <= len -> 0 <= slice_len start stop len <= len.
Proof.
  intros Hl. unfold slice_len.
  destruct (Z.ltb_spec stop 0), (Z.ltb_spec start 0); lia.
Qed.

Lemma slice_len_empty start len : slice_len start start len = 0.
Proof. unfold slice_len. lia. Qed.

Lemma slice_len_inside start n len :
  0 <= start -> 0 <= n -> start + n <= len -> slice_len start (start + n) len = n.
Proof.
  intros H1 H2 H3. unfold slice_len.
  destruct (Z.ltb_spec (start + n) 0), (Z.ltb_spec start 0); lia.
Qed.

Lemma slice_len_outside start n len :
  len <= start -> 0 <= n -> 0 <= len -> slice_len start (start + n) len = 0.
Proof.
  intros H1 H2 H3. unfold slice_len.
  destruct (Z.ltb_spec (start + n) 0), (Z.ltb_spec start 0); lia.
Qed.
End CropFacts.

(** X13.  The size of the crop of a region, on a frame of non-negative
    shape: it is never negative and never more than the frame's; a box
    of zero width or zero height has an empty crop; a box inside the
    frame has the crop [h * w * 3]; and a box that starts at or beyond
    the right or the bottom edge has an empty crop, so the region is
    skipped rather than raising. *)
Theorem box_size_cases f fd :
  (0 <= height f)%Z -> (0 <= width f)%Z ->
  (0 <= box_size f fd <= height f * width f * 3)%Z /\
  (fa_w fd = 0%Z \/ fa_h fd = 0%Z -> box_size f fd = 0%Z) /\
  ((0 <= fa_x fd)%Z -> (0 <= fa_w fd)%Z -> (fa_x fd + fa_w fd <= width f)%Z ->
   (0 <= fa_y fd)%Z -> (0 <= fa_h fd)%Z -> (fa_y fd + fa_h fd <= height f)%Z ->
   box_size f fd = (fa_h fd * fa_w fd * 3)%Z) /\
  ((0 <= fa_w fd)%Z -> (0 <= fa_h fd)%Z ->
   (width f <= fa_x fd)%Z \/ (height f <= fa_y fd)%Z -> box_size f fd = 0%Z).
Proof.
  intros Hh Hw. unfold box_size, crop_size.
  pose proof (slice_len_bounds (fa_y fd) (fa_y fd + fa_h fd) (height f) Hh) as By.
  pose proof (slice_len_bounds (fa_x fd) (fa_x fd + fa_w fd) (width f) Hw) as Bx.
  split; [|split; [|split]].
  - split; [nia|]. nia.
  - intros [E|E]; rewrite E, Z.add_0_r, slice_len_empty; lia.
  - intros. rewrite !slice_len_inside by assumption. reflexivity.
  - intros H1 H2 [H|H].
    + rewrite (slice_len_outside (fa_x fd)) by assumption. lia.
    + rewrite (slice_len_outside (fa_y fd)) by assumption. lia.
Qed.

Lemma box_size_cases_witness :
  box_size Samples.picture0 Samples.face_flat = 0%Z /\
  box_size Samples.picture0 Samples.face_a = (120 * 100 * 3)%Z.
Proof.
  destruct (box_size_cases Samples.picture0 Samples.face_flat
              ltac:(discriminate) ltac:(discriminate)) as (_ & Z0 & _).
  destruct (box_size_cases Samples.picture0 Samples.face_a
              ltac:(discriminate) ltac:(discriminate)) as (_ & _ & In & _).
  split.
  - apply Z0. left. reflexivity.
  - apply In; discriminate.
Defined.

Lemma process_faces_calls V f faces : forall i st,
  height (frame st) = height f -> width (frame st) = width f ->
  exists ext,
    trace (process_faces V i faces st).1 = trace st ++ ext /\
    count is_put ext = count is_analyze ext /\
    count is_analyze ext <= length (List.filter (nonempty_crop f) faces) /\
    ((process_faces V i faces st).2 = None ->
     count is_analyze ext = length (List.filter (nonempty_crop f) faces)).
Proof.
  induction faces as [|fd rest IH]; intros i st Hh Hw; cbn [process_faces].
  - exists []. rewrite app_nil_r. repeat split. reflexivity.
  - destruct (process_face_dims V i fd st) as [Hh' Hw'].
    assert (Hn : nonempty_crop f fd = negb (box_size (frame st) fd =? 0)%Z).
    { unfold nonempty_crop. rewrite (box_size_dims (frame st) f fd Hh Hw). reflexivity. }
    cbn [List.filter]. rewrite Hn.
    destruct (process_face_cases V i fd st) as [[Hz E]|(Hz & _ & Et)].
    + rewrite E. rewrite Hz. cbn [Z.eqb negb].
      destruct (IH (S i) st Hh Hw) as (ext & Ht & Hp & Hle & Heq).
      exists ext. auto.
    + apply Z.eqb_neq in Hz. rewrite Hz. cbn [negb length].
      destruct (process_face V i fd st) as [st' [e|]]; cbn [fst snd] in *.
      * exists [EvAnalyze i; EvPut i (entry_of V (frame st) fd)].
        split; [exact Et|]. rewrite !count_cons. cbn.
        split; [reflexivity|]. split; [lia|discriminate].
      * destruct (IH (S i) st') as (ext & Ht & Hp & Hle & Heq); [congruence|congruence|].
        exists ([EvAnalyze i; EvPut i (entry_of V (frame st) fd)] ++ ext).
        rewrite Ht, Et, <- app_assoc. split; [reflexivity|].
        rewrite !count_app, !count_cons, Hp. cbn.
        split; [reflexivity|]. split; [lia|]. intros Hr. rewrite (Heq Hr). reflexivity.
Qed.

(** X17.  In an iteration whose localizer call returned, the
    expression classifier is invoked as many times as the registry is
    written, and at most as many times as there are detected regions
    with a non-empty crop; when the loop runs to its end, no drawing
    call having raised, it is invoked exactly that many times. *)
Theorem classifier_calls V reg f faces :
  extract_faces V f = Ok faces ->
  let tr := trace (process_frame V reg f) in
  count is_put tr = count is_analyze tr /\
  count is_analyze tr <= length (List.filter (nonempty_crop f) faces) /\
  (reaches V f faces (length faces) ->
   count is_analyze tr = length (List.filter (nonempty_crop f) faces)).
Proof.
  intros E. cbv zeta. destruct (process_frame_Ok _ reg _ _ E) as (_ & _ & ->).
  destruct (process_faces_calls V f faces 0 (cleared f) eq_refl eq_refl)
    as (ext & -> & Hp & Hle & Heq).
  assert (Hc : forall p, p = is_put \/ p = is_analyze ->
            count p ((trace (cleared f) ++ ext)
                     ++ match (process_faces V 0 faces (cleared f)).2 with
                        | Some e => [EvCaught e]
                        | None => []
                        end) = count p ext).
  { intros p Hp'. rewrite !count_app.
    replace (count p (trace (cleared f))) with 0
      by (destruct Hp' as [->| ->]; reflexivity).
    destruct (process_faces V 0 faces (cleared f)).2;
      destruct Hp' as [-> | ->]; rewrite ?count_cons; cbn; lia. }
  rewrite (Hc is_put (or_introl eq_refl)), (Hc is_analyze (or_intror eq_refl)).
  split; [exact Hp|]. split; [exact Hle|].
  intros Hd. apply Heq. unfold reaches in Hd. rewrite firstn_all in Hd. exact Hd.
Qed.

Lemma classifier_calls_witness :
  let V := Samples.vision (Ok [Samples.face_a; Samples.face_flat; Samples.face_b])
             (dec 973 1) in
  count is_analyze (trace (process_frame V ∅ Samples.picture0)) = 2.
Proof.
  intros V.
  destruct (classifier_calls V ∅ Samples.picture0
              [Samples.face_a; Samples.face_flat; Samples.face_b] eq_refl)
    as (_ & _ & H).
  apply H. reflexivity.
Defined.

(* ===================================================================== *)
(** * Further properties of the audio routes *)
(* ===================================================================== *)

(** X14.  An audio route answers 200, 400 or 500.  It answers 400 only
    from a guard on the request itself, and then it has done nothing: no
    capture, no file written, no detector built, no prediction. *)
Theorem validation_has_no_effects E L det r :
  let o := serve E L det r in
  ((response o).2 = 200%Z \/ (response o).2 = 400%Z \/ (response o).2 = 500%Z) /\
  ((response o).2 = 400%Z ->
     effects o = [] /\ detector_after o = det /\
     exists msg, In msg ["No file provided"; "No file selected";
                         "No audio data provided"]%string /\
                 (response o).1 = error_only msg).
Proof.
  cbv zeta. destruct r as [[j|e] | [up|] | [data|e]]; cbn [serve].
  - unfold record_audio. destruct (sd_rec E _ _) as [a|e].
    + destruct (get_detector (construct E) det) as [g [d|]]; cbn;
        (split; [auto|discriminate]).
    + cbn. split; [auto|discriminate].
  - cbn. split; [auto|discriminate].
  - unfold predict_audio_file. destruct (String.eqb (filename up) "").
    + cbn. split; [auto|]. intros _. repeat split. eexists. split; [|reflexivity]. auto.
    + destruct (save_upload E (content up)) as [u|e].
      * destruct (list_debug_dir E) as [n|e].
        -- destruct (get_detector (construct E) det) as [g [d|]]; cbn;
             (split; [auto|discriminate]).
        -- cbn. split; [auto|discriminate].
      * cbn. split; [auto|discriminate].
  - cbn. split; [auto|]. intros _. repeat split. eexists. split; [|reflexivity]. auto.
  - unfold predict_audio_numpy. destruct (length (default [] (nj_audio data)) =? 0).
    + cbn. split; [auto|]. intros _. repeat split. eexists. split; [|reflexivity]. auto.
    + destruct (get_detector (construct E) det) as [g [d|]]; cbn;
        (split; [auto|discriminate]).
  - cbn. split; [auto|discriminate].
Qed.

Lemma validation_has_no_effects_witness :
  effects (serve (Samples.env Samples.missing) Samples.libs None
             (ReqFile (Some {| filename := ""; content := "wav" |}))) = [].
Proof.
  destruct (validation_has_no_effects (Samples.env Samples.missing) Samples.libs None
              (ReqFile (Some {| filename := ""; content := "wav" |}))) as [_ H].
  apply H. reflexivity.
Defined.

(** X15.  The file route calls [os.remove] on its temporary file only
    on its way to a 200 answer, after the prediction, and only when the
    file still exists at that point.  A request whose upload was saved
    and that finds the detector unavailable is answered without any
    attempt to remove the temporary file, which stays behind. *)
Theorem temp_file_cleanup E L det file :
  let o := predict_audio_file E L det file in
  (In EffRemoveTemp (effects o) <->
   (response o).2 = 200%Z /\ temp_exists E = true) /\
  (In EffRemoveTemp (effects o) -> In EffPredict (effects o)) /\
  (reaches_detector E (ReqFile file) = true ->
   (get_detector (construct E) det).2 = None ->
   In EffSaveTemp (effects o) /\ ~ In EffRemoveTemp (effects o)).
Proof.
  cbv zeta. unfold predict_audio_file, reaches_detector.
  destruct file as [up|];
    [destruct (String.eqb (filename up) "");
      [|destruct (save_upload E (content up)) as [u|e];
         [destruct (list_debug_dir E) as [n|e];
           [destruct (get_detector (construct E) det) as [g [d|]];
             [destruct (temp_exists E)|]|]|]]|];
    cbn; intuition (auto 10; try discriminate; try congruence).
Qed.

Lemma temp_file_cleanup_witness :
  let o := predict_audio_file (Samples.env Samples.missing) Samples.libs None
             (Some {| filename := "a.wav"; content := "wav" |}) in
  In EffSaveTemp (effects o) /\ ~ In EffRemoveTemp (effects o).
Proof.
  intros o.
  destruct (temp_file_cleanup (Samples.env Samples.missing) Samples.libs None
              (Some {| filename := "a.wav"; content := "wav" |})) as (_ & _ & H).
  apply H; reflexivity.
Defined.

(** X16.  A detector that is loaded stays loaded: with it, every audio
    route keeps it whatever the state of the artifacts, a request that
    gets past the steps before the detector is answered 200 after a
    prediction, and no request is answered "Audio detector not
    initialized".  The info route loads the detector like the others
    and answers 200 exactly when it has one afterwards. *)
Theorem detector_persists E L d r :
  let o := serve E L (Some d) r in
  detector_after o = Some d /\
  (reaches_detector E r = true ->
   (response o).2 = 200%Z /\ In EffPredict (effects o)) /\
  (response o).1 <> error_only not_initialized /\
  (forall g, (audio_info E g).1.2 = 200%Z <-> is_Some (audio_info E g).2) /\
  audio_info E (Some d) = (inr {| i_status := "ready"; i_emotions := classes_ d;
                                  i_sample_rate := 22050; i_feature_count := 26;
                                  i_duration_recommended := 7 |}, 200%Z, Some d).
Proof.
  cbv zeta. split; [|split; [|split; [|split]]].
  - destruct r as [[j|e] | [up|] | [data|e]]; cbn [serve]; try reflexivity.
    + unfold record_audio. destruct (sd_rec E _ _); reflexivity.
    + unfold predict_audio_file. destruct (String.eqb (filename up) ""); [reflexivity|].
      destruct (save_upload E (content up)); [|reflexivity].
      destruct (list_debug_dir E); reflexivity.
    + unfold predict_audio_numpy.
      destruct (length (default [] (nj_audio data)) =? 0); reflexivity.
  - destruct r as [[j|e] | [up|] | [data|e]]; cbn [serve reaches_detector];
      try discriminate.
    + unfold record_audio. destruct (sd_rec E _ _); [|discriminate].
      intros _. cbn. auto.
    + unfold predict_audio_file. destruct (String.eqb (filename up) ""); [discriminate|].
      destruct (save_upload E (content up)); [|discriminate].
      destruct (list_debug_dir E); [|discriminate].
      intros _. cbn. auto 10.
    + unfold predict_audio_numpy.
      destruct (length (default [] (nj_audio data)) =? 0); [discriminate|].
      intros _. cbn. auto.
  - destruct r as [[j|e] | [up|] | [data|e]]; cbn [serve]; try discriminate.
    + unfold record_audio. destruct (sd_rec E _ _) as [rec|e0]; [|discriminate].
      cbn. intros H. apply (f_equal emotion) in H.
      destruct (predict_from_audio_unit_shape L d (float32_array rec)
                  (default 22050%Z (rj_sample_rate j))) as [x Hx].
      rewrite Hx in H. discriminate.
    + unfold predict_audio_file. destruct (String.eqb (filename up) ""); [discriminate|].
      destruct (save_upload E (content up)) as [u|e0]; [|discriminate].
      destruct (list_debug_dir E) as [n|e0]; [|discriminate].
      cbn. intros H. apply (f_equal emotion) in H.
      unfold predict_from_file in H.
      destruct (decode_file L (content up)) as [[arr sr]|e0].
      * destruct (predict_from_audio_unit_shape L d arr sr) as [x Hx].
        rewrite Hx in H. discriminate.
      * discriminate.
    + unfold predict_audio_numpy.
      destruct (length (default [] (nj_audio data)) =? 0); [discriminate|].
      cbn. intros H. apply (f_equal emotion) in H.
      destruct (predict_from_audio_unit_shape L d
                  (np_array (default [] (nj_audio data)))
                  (default 22050%Z (nj_sample_rate data))) as [x Hx].
      rewrite Hx in H. discriminate.
  - intros g. unfold audio_info.
    destruct g as [d'|]; cbn; [split; eauto|].
    destruct (construct E) as [d'|e]; cbn; split; eauto; try discriminate.
    intros [x Hx]. discriminate.
  - reflexivity.
Qed.

Lemma detector_persists_witness :
  let d := Samples.detector "happy" [dec 7 1; dec 3 1] in
  let o := serve (Samples.env Samples.missing) Samples.libs (Some d)
             (ReqNumpy (Ok {| nj_audio := Some Samples.audio; nj_sample_rate := None |})) in
  (response o).2 = 200%Z /\ In EffPredict (effects o).
Proof.
  intros d o.
  destruct (detector_persists (Samples.env Samples.missing) Samples.libs d
              (ReqNumpy (Ok {| nj_audio := Some Samples.audio; nj_sample_rate := None |})))
    as (_ & H & _).
  apply H. reflexivity.
Defined.
